(** * MIGE: the video frame store and the annotation ledger

    A shallow embedding of [video_annotator.py] (class [VideoAnnotatorCore])
    and of the fill-in handler of [gaze_encoder_app.py], with the properties
    of the frame-count probe, the frame cache, the sidecar CSV and the
    gap fill.

    Modelling decisions, all stated where they are made:
    - Python [int] is [Z], printed and read without CPython's limit on
      the number of digits; Python [str] is [string], a character being
      its code point, from 0 to 255; a value that may be [None] is an
      [option];
    - a [dict] is a [gmap], so two ledgers are equal when they hold the
      same entries, whatever the insertion order;
    - the [csv] module is the boundary of the model: a CSV file is the list
      of rows that [csv.writer] receives and [csv.reader] yields, each row a
      list of fields; quoting and line endings are the library's;
    - an OpenCV capture is a mock decoder over a finite list of frames,
      which honours every seek;
    - an exception is a result of the call, [Raise]; a loop that the model
      bounds by fuel returns [OutOfFuel] when the bound is hit. *)

From Stdlib Require Import ZArith QArith Ascii String List Lia.
From Stdlib Require Import DecimalString DecimalZ DecimalPos.
From stdpp Require Import base option list list_numbers sorting gmap strings fin_maps.

Local Open Scope string_scope.
Local Open Scope Z_scope.

(** ** Python values: strings and integers *)

Module Py.

(** The white space that [int] skips around a literal: TAB to CR and the
    space and, above the ASCII range, NEL (133) and the no-break space
    (160).  The separators FS to US (28 to 31) are white space for
    [str.isspace] but not here: [int] raises [ValueError] on them. *)
Definition isspace (c : ascii) : bool :=
  let n := nat_of_ascii c in
  ((9 <=? n)%nat && (n <=? 13)%nat) || (n =? 32)%nat
  || (n =? 133)%nat || (n =? 160)%nat.

Fixpoint lstrip (s : string) : string :=
  match s with
  | String c s' => if isspace c then lstrip s' else s
  | EmptyString => EmptyString
  end.

Definition rstrip (s : string) : string := String.rev (lstrip (String.rev s)).

Definition strip (s : string) : string := rstrip (lstrip s).

(** The value of a decimal digit, from its code. *)
Definition digit (c : ascii) : option Z :=
  let n := Z.of_nat (nat_of_ascii c) in
  if (48 <=? n) && (n <=? 57) then Some (n - 48) else None.

(** Decimal digits with single underscores between them, as [int] reads
    them: [after_digit] tells whether the previous character was a digit,
    so an underscore is refused at the start, at the end and after another
    underscore. *)
Fixpoint digits (s : string) (acc : Z) (after_digit : bool) : option Z :=
  match s with
  | EmptyString => if after_digit then Some acc else None
  | String c s' =>
      if Ascii.eqb c "_"
      then (if after_digit then digits s' acc false else None)
      else match digit c with
           | Some d => digits s' (10 * acc + d) true
           | None => None
           end
  end.

(** [int(s)] for a string [s], base ten: surrounding white space, one
    optional sign, then the digits.  [None] is [ValueError]. *)
Definition int (s : string) : option Z :=
  match strip s with
  | String "-" s' => Z.opp <$> digits s' 0 false
  | String "+" s' => digits s' 0 false
  | s' => digits s' 0 false
  end.

(** [str(z)] for an integer [z]. *)
Definition str (z : Z) : string := NilZero.string_of_int (Z.to_int z).

(** Truth value of a value that is a string or [None]. *)
Definition truthy (v : option string) : bool :=
  match v with
  | Some s => negb (String.eqb s "")
  | None => false
  end.

(** [a or b] *)
Definition or (a b : option string) : option string :=
  if truthy a then a else b.

Inductive exn : Type :=
  | KeyError (key : string)
  | TypeError
  | ValueError (literal : string).

End Py.

(** ** Results of a call *)

Inductive outcome (A : Type) : Type :=
  | Ret (a : A)
  | Raise (e : Py.exn)
  | OutOfFuel.
Arguments Ret {A} a.
Arguments Raise {A} e.
Arguments OutOfFuel {A}.

Definition bind {A B} (m : outcome A) (k : A -> outcome B) : outcome B :=
  match m with
  | Ret a => k a
  | Raise e => Raise e
  | OutOfFuel => OutOfFuel
  end.

Notation "'let*' x ':=' m 'in' k" := (bind m (fun x => k))
  (at level 10, x pattern, m at level 100, k at level 200).

Definition fuelled {A} (m : option A) : outcome A :=
  match m with
  | Some a => Ret a
  | None => OutOfFuel
  end.

(** ** The decoder backend

    [cv2.VideoCapture], as the probing and the frame access use it: a
    stream of which exactly the frames of [frames] decode (indices
    [0 .. length frames - 1]), the frame count and the rate the container
    reports, and the position the backend reports after a read failed
    ([landing], applied to the position of the failed read).  [int(...)]
    of the reported properties is taken: they are integers here. *)

Module cv2.

Definition ndarray := list Z.

Record Video := {
  frames : list ndarray;
  CAP_PROP_FRAME_COUNT : Z;
  CAP_PROP_FPS : Q;
  landing : Z -> Z
}.

Record VideoCapture := {
  video : Video;
  CAP_PROP_POS_FRAMES : Z;
  isOpened : bool
}.

(** [cap.set(cv2.CAP_PROP_POS_FRAMES, i)].  The mock honours every seek:
    the next read is the read of frame [i].  OpenCV's FFMPEG reader seeks
    only in a container that reports more than one frame; the properties
    that tie the cache and the decoder position after [load_video] to the
    frames of the file are stated for such containers. *)
Definition set_pos (c : VideoCapture) (i : Z) : VideoCapture :=
  if isOpened c
  then {| video := video c; CAP_PROP_POS_FRAMES := i; isOpened := true |}
  else c.

(** The frame under the cursor, when it decodes. *)
Definition decode (c : VideoCapture) : option ndarray :=
  if isOpened c && (0 <=? CAP_PROP_POS_FRAMES c)
  then frames (video c) !! Z.to_nat (CAP_PROP_POS_FRAMES c)
  else None.

(** The capture after a read or a grab: one frame further on success,
    where the backend lands on failure. *)
Definition advance (c : VideoCapture) : VideoCapture :=
  if isOpened c then
    {| video := video c;
       CAP_PROP_POS_FRAMES :=
         match decode c with
         | Some _ => CAP_PROP_POS_FRAMES c + 1
         | None => landing (video c) (CAP_PROP_POS_FRAMES c)
         end;
       isOpened := true |}
  else c.

(** [ret, frame = cap.read()]: [ret] is [true] exactly when a frame comes. *)
Definition read (c : VideoCapture) : option ndarray * VideoCapture :=
  (decode c, advance c).

(** [cap.grab()] *)
Definition grab (c : VideoCapture) : bool * VideoCapture :=
  (bool_decide (is_Some (decode c)), advance c).

(** [cap.release()] *)
Definition release (c : VideoCapture) : VideoCapture :=
  {| video := video c; CAP_PROP_POS_FRAMES := CAP_PROP_POS_FRAMES c;
     isOpened := false |}.

(** [cv2.VideoCapture(filepath)] over the videos the backend can open. *)
Definition open (videos : gmap string Video) (filepath : string) : VideoCapture :=
  match videos !! filepath with
  | Some v => {| video := v; CAP_PROP_POS_FRAMES := 0; isOpened := true |}
  | None =>
      {| video := {| frames := []; CAP_PROP_FRAME_COUNT := 0;
                     CAP_PROP_FPS := 0; landing := fun p => p |};
         CAP_PROP_POS_FRAMES := 0; isOpened := false |}
  end.

End cv2.

(** ** [os.path] *)

Module os_path.

Fixpoint rfind_from (s : string) (c : ascii) (i last : Z) : Z :=
  match s with
  | EmptyString => last
  | String a s' => rfind_from s' c (i + 1) (if Ascii.eqb a c then i else last)
  end.

(** [p.rfind(c)], [-1] when [c] does not occur. *)
Definition rfind (s : string) (c : ascii) : Z := rfind_from s c 0 (-1).

(** [posixpath.splitext]: the extension starts at the last dot of the last
    component, unless only dots precede it there. *)
Definition splitext (p : string) : string * string :=
  let sepIndex := rfind p "/" in
  let dotIndex := rfind p "." in
  if (sepIndex <? dotIndex)
     && existsb (fun i => negb (bool_decide (String.get (Z.to_nat i) p = Some "."%char)))
                (seqZ (sepIndex + 1) (dotIndex - (sepIndex + 1)))
  then (substring 0 (Z.to_nat dotIndex) p,
        substring (Z.to_nat dotIndex) (String.length p - Z.to_nat dotIndex) p)
  else (p, "").

End os_path.

(** ** The sidecar file as the [csv] module presents it *)

Module csv.

(** A file: the rows in order, each the list of its fields.  A blank line
    is the empty row. *)
Abbreviation file := (list (list string)).

(** The row dictionary of [DictReader]: the fields under the names of the
    header, a later duplicate name winning; the names a short row leaves
    out hold [restval], which is [None].  Fields beyond the header go under
    the key [None], which no lookup of the program reaches: they are left
    out. *)
Definition row_dict (fieldnames row : list string) : gmap string (option string) :=
  let d := fold_left (fun d kv => <[kv.1 := Some kv.2]> d) (zip fieldnames row) ∅ in
  fold_left (fun d k => <[k := None]> d) (drop (length row) fieldnames) d.

(** The dictionaries [DictReader] yields: the first row is the header,
    empty rows are passed over. *)
Definition DictReader (f : file) : list (gmap string (option string)) :=
  match f with
  | [] => []
  | fieldnames :: rows =>
      row_dict fieldnames <$> filter (fun r => r <> []) rows
  end.

(** The field [csv.writer] writes for a value: [None] becomes the empty
    field. *)
Definition field (v : option string) : string := default "" v.

End csv.

(** ** [VideoAnnotatorCore] *)

(** An entry of [annotations]: the dictionary with the keys ["mode"] and
    ["group"] that every writer of the ledger builds.  [group] is [None]
    where [load_csv] stored Python's [None]. *)
Record Label := {
  mode : string;
  group : option string
}.

Global Instance Label_eq_dec : EqDecision Label.
Proof. solve_decision. Defined.

Global Instance Label_inhabited : Inhabited Label :=
  populate {| mode := ""; group := None |}.

(** What is on disk: the videos the backend opens, and the CSV files. *)
Record Disk := {
  videos : gmap string cv2.Video;
  files : gmap string csv.file
}.

Record VideoAnnotatorCore := {
  cap : option cv2.VideoCapture;
  path : option string;
  frame_count : Z;
  fps : Q;
  current_frame : Z;
  annotations : gmap Z Label;
  frame_cache : list cv2.ndarray
}.

(** [__init__] *)
Definition init : VideoAnnotatorCore :=
  {| cap := None; path := None; frame_count := 0; fps := 30; current_frame := 0;
     annotations := ∅; frame_cache := [] |}.

Definition with_cap (self : VideoAnnotatorCore) (c : option cv2.VideoCapture) :=
  {| cap := c; path := path self; frame_count := frame_count self; fps := fps self;
     current_frame := current_frame self; annotations := annotations self;
     frame_cache := frame_cache self |}.

Definition with_current_frame (self : VideoAnnotatorCore) (i : Z) :=
  {| cap := cap self; path := path self; frame_count := frame_count self;
     fps := fps self; current_frame := i; annotations := annotations self;
     frame_cache := frame_cache self |}.

Definition with_annotations (self : VideoAnnotatorCore) (m : gmap Z Label) :=
  {| cap := cap self; path := path self; frame_count := frame_count self;
     fps := fps self; current_frame := current_frame self; annotations := m;
     frame_cache := frame_cache self |}.

Definition with_frame_cache (self : VideoAnnotatorCore) (l : list cv2.ndarray) :=
  {| cap := cap self; path := path self; frame_count := frame_count self;
     fps := fps self; current_frame := current_frame self;
     annotations := annotations self; frame_cache := l |}.

(** *** Frame count *)

(** The [while True] loop of [_probe_frame_count]: grab until a grab
    fails.  [None] when the fuel runs out first. *)
Fixpoint grab_loop (fuel : nat) (c : cv2.VideoCapture) (count : Z)
  : option (Z * cv2.VideoCapture) :=
  match fuel with
  | O => None
  | S fuel =>
      let '(grabbed, c) := cv2.grab c in
      if negb grabbed then Some (count, c)
      else grab_loop fuel c (count + 1)
  end.

(** The fuel given to the loop: it starts at frame 0 of a stream that
    decodes [length frames] frames, so one more grab than that ends it. *)
Definition grab_fuel (c : cv2.VideoCapture) : nat :=
  S (length (cv2.frames (cv2.video c))).

Definition grab_count (c : cv2.VideoCapture) (reported : Z)
  : outcome (Z * cv2.VideoCapture) :=
  let c := cv2.set_pos c 0 in
  let* (count, c) := fuelled (grab_loop (grab_fuel c) c 0) in
  let c := cv2.set_pos c 0 in
  Ret (Z.max count reported, c).

Definition _probe_frame_count (c : cv2.VideoCapture) : outcome (Z * cv2.VideoCapture) :=
  let reported := cv2.CAP_PROP_FRAME_COUNT (cv2.video c) in
  if 0 <? reported then
    let c := cv2.set_pos c (Z.max 0 (reported - 1)) in
    let '(ret, c) := cv2.read c in
    if ret is Some _ then Ret (reported, cv2.set_pos c 0)
    else
      let fallback := cv2.CAP_PROP_POS_FRAMES c in
      let c := cv2.set_pos c 0 in
      if 0 <? fallback then Ret (fallback, c)
      else grab_count c reported
  else grab_count c reported.

(** *** The sidecar *)

Definition derive_csv_path (self : VideoAnnotatorCore) : string :=
  match path self with
  | None | Some "" => ""
  | Some p => (os_path.splitext p).1 +:+ "_labels.csv"
  end.

(** [int(row["frame"])] *)
Definition frame_of_row (row : gmap string (option string)) : outcome Z :=
  match row !! "frame" with
  | None => Raise (Py.KeyError "frame")
  | Some None => Raise Py.TypeError
  | Some (Some s) =>
      match Py.int s with
      | Some z => Ret z
      | None => Raise (Py.ValueError s)
      end
  end.

(** [row.get(key)] and [row.get(key, default)] *)
Definition get (row : gmap string (option string)) (key : string) : option string :=
  default None (row !! key).
Definition get_or (row : gmap string (option string)) (key : string) (d : string)
  : option string :=
  default (Some d) (row !! key).

(** [row.get("mode") or row.get("tag") or row.get("name")] *)
Definition mode_val (row : gmap string (option string)) : option string :=
  Py.or (Py.or (get row "mode") (get row "tag")) (get row "name").

(** [row.get("group") or row.get("label", "")] *)
Definition group_val (row : gmap string (option string)) : option string :=
  Py.or (get row "group") (get_or row "label" "").

(** The body of the loop of [load_csv], on the ledger.  An exception leaves
    the loop; the entries stored before it are not tracked. *)
Definition load_row (m : gmap Z Label) (row : gmap string (option string))
  : outcome (gmap Z Label) :=
  let* frame := frame_of_row row in
  match mode_val row with
  | Some mode_str =>
      if negb (Py.truthy (mode_val row)) then Ret m
      else Ret (<[frame := {| mode := mode_str; group := group_val row |}]> m)
  | None => Ret m
  end.

Fixpoint load_rows (m : gmap Z Label) (rows : list (gmap string (option string)))
  : outcome (gmap Z Label) :=
  match rows with
  | [] => Ret m
  | row :: rows => let* m := load_row m row in load_rows m rows
  end.

Definition load_csv (d : Disk) (self : VideoAnnotatorCore) (csv_path : string)
  : outcome VideoAnnotatorCore :=
  match files d !! csv_path with
  | None => Ret self
  | Some f =>
      let* m := load_rows (annotations self) (csv.DictReader f) in
      Ret (with_annotations self m)
  end.

(** [sorted(self.annotations.keys())] *)
Definition sorted_frames (m : gmap Z Label) : list Z :=
  merge_sort Z.le (elements (dom m)).

(** The row [writerow] writes for the entry [l] of [frame]. *)
Definition csv_row (frame : Z) (l : Label) : list string :=
  [Py.str frame; mode l; csv.field (group l)].

(** The rows [save_csv] writes after the header. *)
Definition csv_rows (m : gmap Z Label) : list (list string) :=
  (fun frame => csv_row frame (m !!! frame)) <$> sorted_frames m.

Definition csv_header : list string := ["frame"; "mode"; "group"].

Definition save_csv (d : Disk) (self : VideoAnnotatorCore) : Disk :=
  match path self with
  | None | Some "" => d
  | Some _ =>
      {| videos := videos d;
         files := <[derive_csv_path self := csv_header :: csv_rows (annotations self)]> (files d) |}
  end.

(** *** Opening a video *)

(** The priming loop: at most [n] reads, stopping at the first that fails. *)
Fixpoint prime_loop (n : nat) (c : cv2.VideoCapture) (cache : list cv2.ndarray)
  : cv2.VideoCapture * list cv2.ndarray :=
  match n with
  | O => (c, cache)
  | S n =>
      let '(ret, c) := cv2.read c in
      match ret with
      | None => (c, cache)
      | Some frame => prime_loop n c (cache ++ [frame])
      end
  end.

Definition load_video (d : Disk) (self : VideoAnnotatorCore) (filepath : string)
  : outcome (bool * VideoAnnotatorCore) :=
  let self :=
    match cap self with
    | Some old => with_cap self (Some (cv2.release old))
    | None => self
    end in
  let c := cv2.open (videos d) filepath in
  if negb (cv2.isOpened c) then Ret (false, self)
  else
    let* (count, c) := _probe_frame_count c in
    let reported_fps := cv2.CAP_PROP_FPS (cv2.video c) in
    let self :=
      {| cap := Some c; path := Some filepath; frame_count := count;
         fps := if Qlt_le_dec 0 reported_fps then reported_fps else 30;
         current_frame := 0; annotations := ∅; frame_cache := [] |} in
    let* self := load_csv d self (derive_csv_path self) in
    let prime_count := Z.min 60 (frame_count self) in
    let c := cv2.set_pos c 0 in
    let '(c, cache) := prime_loop (Z.to_nat prime_count) c [] in
    let c :=
      if Z.of_nat (length cache) <? frame_count self
      then cv2.set_pos c (Z.of_nat (length cache))
      else cv2.set_pos c 0 in
    Ret (true, with_frame_cache (with_cap self (Some c)) cache).

(** *** Frame access *)

Definition read_next_frame (self : VideoAnnotatorCore)
  : option cv2.ndarray * VideoAnnotatorCore :=
  match cap self with
  | None => (None, self)
  | Some c =>
      let '(ret, c) := cv2.read c in
      let self := with_cap self (Some c) in
      match ret with
      | None => (None, self)
      | Some frame => (Some frame, with_current_frame self (current_frame self + 1))
      end
  end.

Definition _read_from_cap (self : VideoAnnotatorCore) (frame_index : Z)
  : option cv2.ndarray * VideoAnnotatorCore :=
  match cap self with
  | None => (None, self)
  | Some c =>
      let c := cv2.set_pos c frame_index in
      let '(ret, c) := cv2.read c in
      match ret with
      | Some frame => (Some frame, with_cap self (Some c))
      | None =>
          if 0 <? frame_index then
            let backup_idx := Z.max 0 (frame_index - 1) in
            let c := cv2.set_pos c backup_idx in
            let '(_, c) := cv2.read c in
            let c := cv2.set_pos c frame_index in
            let '(ret, c) := cv2.read c in
            (ret, with_cap self (Some c))
          else (None, with_cap self (Some c))
      end
  end.

Definition get_frame (self : VideoAnnotatorCore) (frame_index : Z)
  : option cv2.ndarray * VideoAnnotatorCore :=
  match cap self with
  | None => (None, self)
  | Some _ =>
      if (frame_index <? 0) || (frame_count self <=? frame_index) then (None, self)
      else
        let '(frame, self) :=
          if frame_index <? Z.of_nat (length (frame_cache self))
          then (frame_cache self !! Z.to_nat frame_index, self)
          else _read_from_cap self frame_index in
        match frame with
        | None => (None, self)
        | Some frame => (Some frame, with_current_frame self frame_index)
        end
  end.

(** *** Labels *)

Definition set_label (d : Disk) (self : VideoAnnotatorCore)
    (frame : Z) (mode_ : string) (group_ : option string)
  : VideoAnnotatorCore * Disk :=
  let self :=
    with_annotations self (<[frame := {| mode := mode_; group := group_ |}]> (annotations self)) in
  (self, save_csv d self).

Definition get_label (self : VideoAnnotatorCore) (frame : option Z) : option Label :=
  annotations self !! default (current_frame self) frame.

(** ** The fill-in handler of [GazeEncoderApp]

    Of the application object only the annotator matters to the handler;
    the widgets it refreshes are not modelled.  The handler returns nothing:
    [report] records what the user sees, the dialog that was shown, or, on
    the path that fills, the value of the local counter [filled]. *)

Module GazeEncoderApp.

Inductive report : Type :=
  | Warning (title text : string)
  | Information (title text : string)
  | Filled (filled : Z).

(** The [while] loop of [_find_neighbor_label]; [None] when the fuel runs
    out, [Some None] for the pair [(None, None)]. *)
Fixpoint find_loop (fuel : nat) (annotator : VideoAnnotatorCore) (idx step : Z)
  : option (option (Z * Label)) :=
  match fuel with
  | O => None
  | S fuel =>
      if (0 <=? idx) && (idx <? frame_count annotator) then
        match annotations annotator !! idx with
        | Some lab => Some (Some (idx, lab))
        | None => find_loop fuel annotator (idx + step) step
        end
      else Some None
  end.

(** The loop visits each index of the video at most once when [step] is
    not zero: one more iteration than there are frames is given. *)
Definition _find_neighbor_label (annotator : VideoAnnotatorCore) (start_idx step : Z)
  : outcome (option (Z * Label)) :=
  fuelled (find_loop (S (Z.to_nat (frame_count annotator))) annotator (start_idx + step) step).

(** [goto_frame(idx, do_label=False)] *)
Definition goto_frame (annotator : VideoAnnotatorCore) (idx : Z) : VideoAnnotatorCore :=
  let '(frame, annotator) := get_frame annotator idx in
  match frame with
  | None => annotator
  | Some _ => with_current_frame annotator idx
  end.

(** The [for] loop of [fill_between_labels], one index at a time. *)
Definition fill_step (fill : Label) (acc : gmap Z Label * Z) (idx : Z)
  : gmap Z Label * Z :=
  match acc.1 !! idx with
  | None => (<[idx := fill]> acc.1, acc.2 + 1)
  | Some _ => acc
  end.

Definition must_match : string :=
  "When using Fillin, labels before and after the cursor must match".

Definition fill_between_labels (d : Disk) (annotator : VideoAnnotatorCore)
  : outcome (report * VideoAnnotatorCore * Disk) :=
  match cap annotator with
  | None => Ret (Warning "Warning" "No video loaded", annotator, d)
  | Some _ =>
      let cur := current_frame annotator in
      match get_label annotator (Some cur) with
      | Some _ =>
          Ret (Information "Warning" "Run Fillin on an unlabeled frame", annotator, d)
      | None =>
          let* prev := _find_neighbor_label annotator cur (-1) in
          let* next := _find_neighbor_label annotator cur 1 in
          match prev, next with
          | Some (prev_idx, prev_label), Some (next_idx, next_label) =>
              let same_mode := bool_decide (mode prev_label = mode next_label) in
              let same_group := bool_decide (group prev_label = group next_label) in
              if negb (same_mode && same_group)
              then Ret (Warning "Warning" must_match, annotator, d)
              else
                let fill := {| mode := mode prev_label; group := group prev_label |} in
                let '(m, filled) :=
                  fold_left (fill_step fill)
                            (seqZ (prev_idx + 1) (next_idx - (prev_idx + 1)))
                            (annotations annotator, 0) in
                let annotator := with_annotations annotator m in
                if filled =? 0
                then Ret (Information "Info" "No unlabeled frames between labels",
                          annotator, d)
                else
                  let d := save_csv d annotator in
                  Ret (Filled filled, goto_frame annotator cur, d)
          | _, _ => Ret (Warning "Warning" must_match, annotator, d)
          end
      end
  end.

(** The value of the call [fill_between_labels()]: every exit of the
    handler is a bare [return] or the end of its body, so the caller gets
    [None] whatever was shown; the counter [filled] stays local. *)
Definition returned (r : report) : option Z :=
  match r with
  | Warning _ _ => None
  | Information _ _ => None
  | Filled _ => None
  end.

(** [prev_frame] and [next_frame]: [goto_frame] with [do_label] left at
    its default, [False]. *)
Definition prev_frame (annotator : VideoAnnotatorCore) : VideoAnnotatorCore :=
  goto_frame annotator (Z.max 0 (current_frame annotator - 1)).

Definition next_frame (annotator : VideoAnnotatorCore) : VideoAnnotatorCore :=
  goto_frame annotator
    (Z.min (frame_count annotator - 1) (current_frame annotator + 1)).

End GazeEncoderApp.

(** ** The coloured bar of [TimelineRenderer]

    Of [render], the part that decides what is drawn: the colour of each
    frame and the runs of equal colour.  The widgets and the pixels are not
    modelled; the width and the height of the label are inputs, and
    [color_for_mode] is the function the application passes. *)

Module TimelineRenderer.

(** The local function [color_for_frame] of [render]. *)
Definition color_for_frame (annotator : VideoAnnotatorCore)
    (color_for_mode : string -> string) (idx : Z) : string :=
  match annotations annotator !! idx with
  | Some lab =>
      if negb (String.eqb (mode lab) "") then color_for_mode (mode lab)
      else "#AAAAAA"
  | None => "#AAAAAA"
  end.

(** One turn of the loop that builds [segments]: the list, [current_start]
    and [current_color]. *)
Definition segment_step (color : Z -> string)
    (acc : list (Z * Z * string) * Z * string) (i : Z)
  : list (Z * Z * string) * Z * string :=
  let '(segments, current_start, current_color) := acc in
  let col := color i in
  if negb (String.eqb col current_color)
  then ((segments ++ [(current_start, i, current_color)])%list, i, col)
  else acc.

(** The list [segments] that [render] draws; [None] on the paths that
    return before it is built. *)
Definition segments (annotator : VideoAnnotatorCore)
    (color_for_mode : string -> string) (width height : Z)
  : option (list (Z * Z * string)) :=
  match cap annotator with
  | None => None
  | Some _ =>
      if (width <=? 1) || (height <=? 1) then None
      else
        let total_frames := frame_count annotator in
        if total_frames <=? 0 then None
        else
          let color := color_for_frame annotator color_for_mode in
          let '(segments, current_start, current_color) :=
            fold_left (segment_step color) (seqZ 1 (total_frames - 1))
                      ([], 0, color 0) in
          Some (segments ++ [(current_start, total_frames, current_color)])%list
  end.

End TimelineRenderer.

(** * Notions the statements use *)

(** No character of [s] is white space. *)
Fixpoint nospace (s : string) : bool :=
  match s with
  | EmptyString => true
  | String c s' => negb (Py.isspace c) && nospace s'
  end.

(** The value of a decimal numeral read from the left with accumulator. *)
Fixpoint uint_val (d : Decimal.uint) (acc : Z) : Z :=
  match d with
  | Decimal.Nil => acc
  | Decimal.D0 d => uint_val d (10 * acc)
  | Decimal.D1 d => uint_val d (10 * acc + 1)
  | Decimal.D2 d => uint_val d (10 * acc + 2)
  | Decimal.D3 d => uint_val d (10 * acc + 3)
  | Decimal.D4 d => uint_val d (10 * acc + 4)
  | Decimal.D5 d => uint_val d (10 * acc + 5)
  | Decimal.D6 d => uint_val d (10 * acc + 6)
  | Decimal.D7 d => uint_val d (10 * acc + 7)
  | Decimal.D8 d => uint_val d (10 * acc + 8)
  | Decimal.D9 d => uint_val d (10 * acc + 9)
  end.

(** The number of frames of the stream that decode. *)
Definition decodable (c : cv2.VideoCapture) : Z :=
  Z.of_nat (length (cv2.frames (cv2.video c))).

(** The count the probe arrives at, for a stream that decodes [N] frames,
    a reported count [R] and a position [p] reported after the failed read
    of frame [R - 1]. *)
Definition probe_result (N R p : Z) : Z :=
  if 0 <? R then
    if R <=? N then R
    else if 0 <? p then p
    else Z.max N R
  else Z.max N R.

(** The count [_probe_frame_count] returns. *)
Definition probed_count (c : cv2.VideoCapture) : outcome Z :=
  let* (count, _) := _probe_frame_count c in Ret count.

(** The entry a reload gives for the entry [l]: the group comes back as a
    string, the empty one where [l] held [None]. *)
Definition reloaded (l : Label) : Label :=
  {| mode := mode l; group := Some (csv.field (group l)) |}.

(** The ledger [load_csv] builds, from an empty one, out of the file that
    [save_csv] writes for [m]. *)
Definition reload (m : gmap Z Label) : outcome (gmap Z Label) :=
  load_rows ∅ (csv.DictReader (csv_header :: csv_rows m)).

(** Storing one entry of what was written: the step of the reload. *)
Definition restore (m acc : gmap Z Label) (k : Z) : gmap Z Label :=
  if decide (mode (m !!! k) = "") then acc else <[k := reloaded (m !!! k)]> acc.

(** [save_csv], then [load_csv] of the file it wrote into the same ledger
    emptied. *)
Definition save_then_load (d : Disk) (self : VideoAnnotatorCore)
  : outcome VideoAnnotatorCore :=
  load_csv (save_csv d self) (with_annotations self ∅) (derive_csv_path self).

(** [int(row["frame"])] returns. *)
Definition frame_readable (row : gmap string (option string)) : Prop :=
  exists z, frame_of_row row = Ret z.

(** An open capture of a video with the cursor on a frame. *)
Definition capture_at (v : cv2.Video) (pos : Z) : cv2.VideoCapture :=
  {| cv2.video := v; cv2.CAP_PROP_POS_FRAMES := pos; cv2.isOpened := true |}.

(** The rate [load_video] stores for a reported rate. *)
Definition stored_fps (reported : Q) : Q :=
  if Qlt_le_dec 0 reported then reported else 30.

(** The count [load_video] stores for a video. *)
Definition stored_count (v : cv2.Video) : Z :=
  probe_result (Z.of_nat (length (cv2.frames v))) (cv2.CAP_PROP_FRAME_COUNT v)
    (cv2.landing v (cv2.CAP_PROP_FRAME_COUNT v - 1)).

(** The frames [load_video] caches for a video. *)
Definition primed (v : cv2.Video) : list cv2.ndarray :=
  take (Z.to_nat (Z.min 60 (stored_count v))) (cv2.frames v).

(** The state a successful [load_video] builds for the video [v] found at
    [filepath] and the ledger [m] read from its sidecar. *)
Definition opened_state (v : cv2.Video) (filepath : string) (m : gmap Z Label)
  : VideoAnnotatorCore :=
  {| cap := Some (capture_at v
                    (if Z.of_nat (length (primed v)) <? stored_count v
                     then Z.of_nat (length (primed v)) else 0));
     path := Some filepath;
     frame_count := stored_count v;
     fps := stored_fps (cv2.CAP_PROP_FPS v);
     current_frame := 0;
     annotations := m;
     frame_cache := primed v |}.

(** The path [derive_csv_path] gives while [filepath] is the stored path. *)
Definition sidecar_path (filepath : string) : string :=
  derive_csv_path
    {| cap := None; path := Some filepath; frame_count := 0; fps := 30;
       current_frame := 0; annotations := ∅; frame_cache := [] |}.

(** The ledger [load_csv] builds from nothing for the sidecar of
    [filepath]: empty when the file is missing. *)
Definition sidecar_ledger (d : Disk) (filepath : string) : outcome (gmap Z Label) :=
  match files d !! sidecar_path filepath with
  | None => Ret ∅
  | Some f => load_rows ∅ (csv.DictReader f)
  end.

(** The state the failing branch of [load_video] returns. *)
Definition released (self : VideoAnnotatorCore) : VideoAnnotatorCore :=
  match cap self with
  | Some old => with_cap self (Some (cv2.release old))
  | None => self
  end.

(** Moving about a video leaves it the same video: path, frame count,
    ledger and cache are kept, and a cursor inside the video stays inside. *)
Definition same_video_in_range (a a' : VideoAnnotatorCore) : Prop :=
  path a' = path a /\ frame_count a' = frame_count a
  /\ annotations a' = annotations a /\ frame_cache a' = frame_cache a
  /\ (0 <= current_frame a < frame_count a ->
      0 <= current_frame a' < frame_count a').

(** No character of [s] is a dot or a slash: [s] can be the extension of
    a file name, after its dot. *)
Fixpoint plain (s : string) : bool :=
  match s with
  | EmptyString => true
  | String c s' => negb (Ascii.eqb c ".") && negb (Ascii.eqb c "/") && plain s'
  end.

(** The row [row] makes [load_csv] store the label [l] for the frame [k]. *)
Definition stores (row : gmap string (option string)) (k : Z) (l : Label) : Prop :=
  frame_of_row row = Ret k /\ mode_val row = Some (mode l) /\ mode l <> ""
  /\ group_val row = group l.

(** The row [row] makes [load_csv] store nothing for the frame [k]: its
    frame is another one, or it has no usable mode. *)
Definition passes (k : Z) (row : gmap string (option string)) : Prop :=
  frame_of_row row <> Ret k \/ Py.truthy (mode_val row) = false.

(** The frame [p], with the label [lp], is the nearest labeled frame below
    [start] inside the video, [start - 1] being inside it too. *)
Definition nearest_below (a : VideoAnnotatorCore) (start p : Z) (lp : Label)
  : Prop :=
  start - 1 < frame_count a /\ 0 <= p < start
  /\ annotations a !! p = Some lp
  /\ forall i, p < i < start -> annotations a !! i = None.

(** The frame [n], with the label [ln], is the nearest labeled frame above
    [start] inside the video, [start + 1] not being negative. *)
Definition nearest_above (a : VideoAnnotatorCore) (start n : Z) (ln : Label)
  : Prop :=
  0 <= start + 1 /\ start < n < frame_count a
  /\ annotations a !! n = Some ln
  /\ forall i, start < i < n -> annotations a !! i = None.

(** The ledger after the loop of the fill between [prev_idx] and
    [next_idx] with the label [fill]. *)
Definition filled_between (m : gmap Z Label) (prev_idx next_idx : Z) (fill : Label)
  : gmap Z Label :=
  (fold_left (GazeEncoderApp.fill_step fill)
     (seqZ (prev_idx + 1) (next_idx - (prev_idx + 1))) (m, 0)).1.

(** The segments [segs] tile the frames from [lo] to [hi]: each starts
    where the one before ended, is not empty, has the colour of every one
    of its frames, and is followed by a frame of another colour. *)
Fixpoint tiles (color : Z -> string) (lo : Z) (segs : list (Z * Z * string)) (hi : Z)
  : Prop :=
  match segs with
  | [] => lo = hi
  | (s, e, c) :: rest =>
      s = lo /\ s < e /\ (forall i, s <= i < e -> color i = c)
      /\ (rest <> [] -> color e <> c)
      /\ tiles color e rest hi
  end.

(** What the loop of [render] keeps true once the frames below [k] have
    been seen: the open run starts at [s] with the colour [c], and closing
    it anywhere it still reaches gives a tiling. *)
Definition run_open (color : Z -> string) (k : Z)
    (st : list (Z * Z * string) * Z * string) : Prop :=
  let '(segs, s, c) := st in
  0 <= s < k /\ (forall i, s <= i < k -> color i = c)
  /\ forall hi, k <= hi -> (forall i, s <= i < hi -> color i = c) ->
       tiles color 0 (segs ++ [(s, hi, c)]) hi.

(** * Concrete inputs *)

(** A stream of ten frames whose container reports five. *)
Definition under_reporting : cv2.VideoCapture :=
  {| cv2.video :=
       {| cv2.frames := replicate 10 [0]; cv2.CAP_PROP_FRAME_COUNT := 5;
          cv2.CAP_PROP_FPS := 25; cv2.landing := fun p => p |};
     cv2.CAP_PROP_POS_FRAMES := 0; cv2.isOpened := true |}.

(** A stream of ten frames whose container reports twenty, on a backend
    that lands on the end of the stream when a read fails. *)
Definition over_reporting : cv2.VideoCapture :=
  {| cv2.video :=
       {| cv2.frames := replicate 10 [0]; cv2.CAP_PROP_FRAME_COUNT := 20;
          cv2.CAP_PROP_FPS := 25; cv2.landing := fun _ => 10 |};
     cv2.CAP_PROP_POS_FRAMES := 0; cv2.isOpened := true |}.

(** A stream of twenty frames that the container counts right. *)
Definition twenty_frames : cv2.VideoCapture :=
  {| cv2.video :=
       {| cv2.frames := replicate 20 [0]; cv2.CAP_PROP_FRAME_COUNT := 20;
          cv2.CAP_PROP_FPS := 25; cv2.landing := fun p => p |};
     cv2.CAP_PROP_POS_FRAMES := 0; cv2.isOpened := true |}.

(** A video of three frames that the container counts right, a disk that
    holds it and no sidecar, and the ledger after opening it. *)
Definition three_frames : cv2.Video :=
  {| cv2.frames := [[1]; [2]; [3]]; cv2.CAP_PROP_FRAME_COUNT := 3;
     cv2.CAP_PROP_FPS := 25; cv2.landing := fun p => p |}.

Definition one_video : Disk :=
  {| videos := {[ "clips/run1.mp4" := three_frames ]}; files := ∅ |}.

Definition opened : VideoAnnotatorCore :=
  match load_video one_video init "clips/run1.mp4" with
  | Ret (_, self) => self
  | _ => init
  end.

(** A disk with no video and no sidecar. *)
Definition empty_disk : Disk := {| videos := ∅; files := ∅ |}.

(** A loaded ledger whose video is [under_reporting]. *)
Definition loaded : VideoAnnotatorCore :=
  {| cap := Some under_reporting; path := Some "clips/run1.mp4"; frame_count := 5;
     fps := 25; current_frame := 3;
     annotations := {[ 2 := {| mode := "look"; group := Some "left" |} ]};
     frame_cache := replicate 5 [0] |}.

(** The same ledger after its five frames and five more were read. *)
Definition exhausted : VideoAnnotatorCore :=
  with_cap loaded (Some (cv2.set_pos under_reporting 10)).

(** A ledger with a stored path and two entries, one with the empty
    group. *)
Definition labelled : VideoAnnotatorCore :=
  {| cap := Some under_reporting; path := Some "clips/run1.mp4"; frame_count := 5;
     fps := 25; current_frame := 3;
     annotations := {[ 2 := {| mode := "look"; group := Some "left" |};
                       4 := {| mode := "blink"; group := Some "" |} ]};
     frame_cache := [] |}.

(** The same ledger with one more entry, whose mode is empty. *)
Definition with_empty_mode : VideoAnnotatorCore :=
  with_annotations labelled (<[3 := {| mode := ""; group := Some "left" |}]> (annotations labelled)).

(** A sidecar whose only row has a frame field that is not an integer. *)
Definition bad_frame : Disk :=
  {| videos := ∅;
     files := {[ "clips/run1_labels.csv" :=
                   [["frame"; "mode"; "group"]; ["abc"; "look"; "left"]] ]} |}.

(** A sidecar with a row that has no mode and a row that has one. *)
Definition no_mode_row : Disk :=
  {| videos := ∅;
     files := {[ "clips/run1_labels.csv" :=
                   [["frame"; "mode"; "group"]; ["3"; ""; "left"]; ["4"; "look"; ""]] ]} |}.

(** A sidecar of an older layout: the mode and the group columns are there
    and empty, the label is under [name] and [label]. *)
Definition legacy_columns : list string :=
  ["frame"; "mode"; "group"; "tag"; "name"; "label"].

(** A disk whose sidecar has that layout and one row, for frame 4. *)
Definition legacy_sidecar : Disk :=
  {| videos := ∅;
     files := {[ "clips/run1_labels.csv" :=
                   [legacy_columns; ["4"; ""; ""; ""; "blink"; "left"]] ]} |}.

(** The labels of the gap-fill example: ["A", "x"] on frame 5, the label
    [at15] on frame 15, the cursor on frame 10 of twenty frames. *)
Definition A_x : Label := {| mode := "A"; group := Some "x" |}.
Definition B_x : Label := {| mode := "B"; group := Some "x" |}.

Definition gap (at15 : Label) : VideoAnnotatorCore :=
  {| cap := Some twenty_frames; path := Some "clips/run1.mp4"; frame_count := 20;
     fps := 25; current_frame := 10;
     annotations := {[ 5 := A_x; 15 := at15 ]};
     frame_cache := [] |}.

(** A video of a hundred frames, frame [i] holding the number [i], that
    the container counts right; a disk that holds it. *)
Definition hundred_frames : cv2.Video :=
  {| cv2.frames := (fun i => [Z.of_nat i]) <$> seq 0 100;
     cv2.CAP_PROP_FRAME_COUNT := 100; cv2.CAP_PROP_FPS := 0;
     cv2.landing := fun p => p |}.

Definition long_video : Disk :=
  {| videos := {[ "clips/long.mp4" := hundred_frames ]}; files := ∅ |}.

(** The state after opening [hundred_frames]. *)
Definition opened_long : VideoAnnotatorCore :=
  opened_state hundred_frames "clips/long.mp4" ∅.

(** The state [self] with another path stored. *)
Definition with_path (self : VideoAnnotatorCore) (filepath : string)
  : VideoAnnotatorCore :=
  {| cap := cap self; path := Some filepath; frame_count := frame_count self;
     fps := fps self; current_frame := current_frame self;
     annotations := annotations self; frame_cache := frame_cache self |}.

(** A disk with the video of [labelled] on it. *)
Definition with_run1 : Disk :=
  {| videos := {[ "clips/run1.mp4" := three_frames ]}; files := ∅ |}.

(** A sidecar with two rows for frame 7. *)
Definition twice_seven : list (list string) :=
  [["frame"; "mode"; "group"]; ["7"; "look"; "left"]; ["7"; "blink"; ""]].

(** A disk with that sidecar, and a ledger that holds a label for frame 9
    before the sidecar is loaded. *)
Definition twice_seven_disk : Disk :=
  {| videos := ∅; files := {[ "clips/run1_labels.csv" := twice_seven ]} |}.

Definition nine_labelled : VideoAnnotatorCore :=
  with_annotations init {[ 9 := A_x ]}.

(** Sidecars that [save_csv] did not write: one without a frame column,
    one whose second row ends before the frame column, one whose frame is
    not an integer, and one whose frame starts with the separator FS. *)
Definition foreign_sidecars : Disk :=
  {| videos := ∅;
     files := {[ "no_frame.csv" := [["mode"; "group"]; ["look"; "left"]];
                 "short_row.csv" := [["mode"; "frame"]; ["blink"; " 12 "]; ["look"]];
                 "not_integer.csv" := [["mode"; "frame"]; ["look"; "1.5"]];
                 "separator.csv" := [["frame"; "mode"]; [String "028" "9"; "look"]] ]} |}.

(** The state and the disk after the fill of the example. *)
Definition gap_filled : VideoAnnotatorCore * Disk :=
  match GazeEncoderApp.fill_between_labels empty_disk (gap A_x) with
  | Ret (_, a, d) => (a, d)
  | _ => (gap A_x, empty_disk)
  end.

(** The state and the disk after the handler ran on the mismatched
    example. *)
Definition gap_refused : GazeEncoderApp.report * VideoAnnotatorCore * Disk :=
  match GazeEncoderApp.fill_between_labels empty_disk (gap B_x) with
  | Ret r => r
  | _ => (GazeEncoderApp.Filled 0, gap B_x, empty_disk)
  end.

(** The colours of the example: red for the mode ["A"], blue otherwise. *)
Definition two_colours (mode_ : string) : string :=
  if String.eqb mode_ "A" then "#FF0000" else "#0000FF".

(** * Properties *)

(** ** Python integers and paths *)

Example int_examples :
  Py.int "12" = Some 12 /\ Py.int " -7 " = Some (-7) /\ Py.int "+1_000" = Some 1000 /\
  Py.int "007" = Some 7 /\ Py.int "" = None /\ Py.int "abc" = None /\
  Py.int "1__0" = None /\ Py.int "- 5" = None /\ Py.int "5_" = None /\
  Py.int (String "028" "9") = None /\ Py.int (String "160" "9") = Some 9 /\
  Py.str 0 = "0" /\ Py.str (-15) = "-15" /\ Py.str 120 = "120".
Proof. repeat split; reflexivity. Qed.

Example splitext_examples :
  os_path.splitext "clips/run1.mp4" = ("clips/run1", ".mp4") /\
  os_path.splitext "clips.d/run1" = ("clips.d/run1", "") /\
  os_path.splitext ".hidden" = (".hidden", "") /\
  os_path.splitext "a.tar.gz" = ("a.tar", ".gz").
Proof. repeat split; reflexivity. Qed.

(** ** [int] reads back what [str] prints *)

Section int_of_str.

Lemma lstrip_nospace s : nospace s = true -> Py.lstrip s = s.
Proof. destruct s as [|c s]; simpl; [done|]. by destruct (Py.isspace c). Qed.

Lemma rev_app_nospace s t :
  nospace s = true -> nospace t = true -> nospace (String.rev_app s t) = true.
Proof.
  revert t. induction s as [|c s IH]; intros t Hs Ht; simpl in *; [done|].
  apply andb_prop in Hs as [Hc Hs]. apply IH; [done|]. simpl. by rewrite Hc, Ht.
Qed.

Lemma rev_app_rev_app s t u :
  String.rev_app (String.rev_app s t) u = String.rev_app t (s +:+ u).
Proof.
  revert t u. induction s as [|c s IH]; intros t u; simpl; [done|].
  by rewrite IH.
Qed.

Lemma strip_nospace s : nospace s = true -> Py.strip s = s.
Proof.
  intros Hs. unfold Py.strip, Py.rstrip. rewrite (lstrip_nospace s Hs).
  rewrite lstrip_nospace by (by apply rev_app_nospace).
  unfold String.rev. rewrite rev_app_rev_app. simpl.
  clear Hs. induction s as [|c s IH]; [done|].
  change (String c s +:+ "") with (String c (s +:+ "")). by rewrite IH.
Qed.

Lemma digits_cons_digit (c : ascii) (k : Z) s acc b :
  Py.digit c = Some k ->
  Py.digits (String c s) acc b = Py.digits s (10 * acc + k) true.
Proof.
  intros Hk. cbn [Py.digits]. rewrite Hk.
  destruct (Ascii.eqb_spec c "_") as [->|]; [|done].
  vm_compute in Hk. discriminate.
Qed.

Lemma digits_string_of_uint d acc b :
  d <> Decimal.Nil \/ b = true ->
  Py.digits (NilEmpty.string_of_uint d) acc b = Some (uint_val d acc).
Proof.
  revert acc b.
  induction d as [|d IH|d IH|d IH|d IH|d IH|d IH|d IH|d IH|d IH|d IH];
    intros acc b Hb; cbn [NilEmpty.string_of_uint uint_val];
    try (match goal with
         | |- Py.digits (String ?c _) _ _ = _ =>
             let v := eval vm_compute in (Py.digit c) in
             match v with
             | Some ?k => rewrite (digits_cons_digit c k) by reflexivity
             end
         end;
         rewrite IH by (by right); do 2 f_equal; lia).
  destruct Hb as [?| ->]; done.
Qed.

Lemma nospace_string_of_uint d : nospace (NilEmpty.string_of_uint d) = true.
Proof. induction d; simpl; auto. Qed.

Lemma uint_val_pos d p : uint_val d (Z.pos p) = Z.pos (Pos.of_uint_acc d p).
Proof.
  revert p. induction d; intros p; simpl; [done|..];
    match goal with
    | |- uint_val _ ?a = Z.pos (Pos.of_uint_acc _ ?q) =>
        replace a with (Z.pos q) by lia; auto
    end.
Qed.

Lemma uint_val_zero d : uint_val d 0 = Z.of_uint d.
Proof.
  unfold Z.of_uint. induction d; simpl; [done|done|..];
    exact (uint_val_pos d _).
Qed.

Lemma digits_nilzero d :
  Py.digits (NilZero.string_of_uint d) 0 false = Some (Z.of_uint d).
Proof.
  rewrite <- uint_val_zero. destruct d; [done|..];
    apply digits_string_of_uint; by left.
Qed.

Lemma nilzero_head d :
  exists c s, NilZero.string_of_uint d = String c s /\ Py.digit c <> None.
Proof. destruct d; (do 2 eexists; split; [reflexivity|vm_compute; discriminate]). Qed.

Lemma nospace_nilzero d : nospace (NilZero.string_of_uint d) = true.
Proof. destruct d; try apply (nospace_string_of_uint (_ _)); done. Qed.

Lemma int_str (z : Z) : Py.int (Py.str z) = Some z.
Proof.
  unfold Py.int, Py.str. rewrite <- (DecimalZ.of_to z) at 2.
  destruct (Z.to_int z) as [d|d]; simpl.
  - rewrite strip_nospace by apply nospace_nilzero.
    destruct (nilzero_head d) as (c & s & Hs & Hc).
    pose proof (digits_nilzero d) as Hd. rewrite Hs in *.
    destruct c as [[] [] [] [] [] [] [] []];
      first [exact Hd | exfalso; apply Hc; reflexivity].
  - rewrite strip_nospace by (simpl; apply nospace_nilzero).
    by rewrite digits_nilzero.
Qed.

End int_of_str.

(** ** The frame-count probe *)

Section probe.

Implicit Types c : cv2.VideoCapture.

Lemma decode_in_range c :
  cv2.isOpened c = true ->
  0 <= cv2.CAP_PROP_POS_FRAMES c < decodable c ->
  is_Some (cv2.decode c).
Proof.
  intros Ho Hp. unfold cv2.decode. rewrite Ho.
  replace (0 <=? _) with true by (symmetry; apply Z.leb_le; lia). simpl.
  apply lookup_lt_is_Some. unfold decodable in Hp. lia.
Qed.

Lemma decode_out_of_range c :
  decodable c <= cv2.CAP_PROP_POS_FRAMES c -> cv2.decode c = None.
Proof.
  intros Hp. unfold cv2.decode.
  destruct (cv2.isOpened c && _); [|done].
  apply lookup_ge_None. unfold decodable in Hp. lia.
Qed.

Lemma set_pos_opened c i :
  cv2.isOpened c = true ->
  cv2.isOpened (cv2.set_pos c i) = true /\
  cv2.video (cv2.set_pos c i) = cv2.video c /\
  cv2.CAP_PROP_POS_FRAMES (cv2.set_pos c i) = i.
Proof. intros Ho. unfold cv2.set_pos. by rewrite Ho. Qed.

Lemma advance_opened c :
  cv2.isOpened c = true ->
  cv2.isOpened (cv2.advance c) = true /\ cv2.video (cv2.advance c) = cv2.video c.
Proof. intros Ho. unfold cv2.advance. by rewrite Ho. Qed.

Lemma advance_pos_success c :
  cv2.isOpened c = true -> is_Some (cv2.decode c) ->
  cv2.CAP_PROP_POS_FRAMES (cv2.advance c) = cv2.CAP_PROP_POS_FRAMES c + 1.
Proof. intros Ho [f Hf]. unfold cv2.advance. by rewrite Ho, Hf. Qed.

Lemma advance_pos_failure c :
  cv2.isOpened c = true -> cv2.decode c = None ->
  cv2.CAP_PROP_POS_FRAMES (cv2.advance c)
  = cv2.landing (cv2.video c) (cv2.CAP_PROP_POS_FRAMES c).
Proof. intros Ho Hf. unfold cv2.advance. by rewrite Ho, Hf. Qed.

(** From a position inside the stream the loop counts the frames that
    remain, given one unit of fuel more than that. *)
Lemma grab_loop_counts fuel c count :
  cv2.isOpened c = true ->
  0 <= cv2.CAP_PROP_POS_FRAMES c <= decodable c ->
  (Z.to_nat (decodable c - cv2.CAP_PROP_POS_FRAMES c) < fuel)%nat ->
  exists c',
    grab_loop fuel c count
    = Some (count + (decodable c - cv2.CAP_PROP_POS_FRAMES c), c')
    /\ cv2.isOpened c' = true /\ cv2.video c' = cv2.video c.
Proof.
  revert c count. induction fuel as [|fuel IH]; intros c count Ho Hp Hf; [lia|].
  simpl. destruct (decide (cv2.CAP_PROP_POS_FRAMES c < decodable c)) as [Hlt|Hge].
  - pose proof (decode_in_range c Ho ltac:(lia)) as Hd.
    rewrite bool_decide_eq_true_2 by done. simpl.
    destruct (advance_opened c Ho) as [Ho' Hv'].
    pose proof (advance_pos_success c Ho Hd) as Hp'.
    assert (decodable (cv2.advance c) = decodable c) as Hn
      by (unfold decodable; by rewrite Hv').
    destruct (IH (cv2.advance c) (count + 1) Ho') as (c' & -> & ? & ?);
      [lia|lia|].
    exists c'. split_and!; [do 2 f_equal; lia|done|congruence].
  - rewrite (decode_out_of_range c) by lia.
    rewrite bool_decide_eq_false_2 by (by intros [? ?]). simpl.
    exists (cv2.advance c). destruct (advance_opened c Ho).
    split_and!; [do 2 f_equal; lia|done..].
Qed.

Lemma grab_count_spec c reported :
  cv2.isOpened c = true ->
  exists c',
    grab_count c reported = Ret (Z.max (decodable c) reported, c')
    /\ cv2.CAP_PROP_POS_FRAMES c' = 0.
Proof.
  intros Ho. unfold grab_count.
  destruct (set_pos_opened c 0 Ho) as (Ho0 & Hv0 & Hp0).
  assert (decodable (cv2.set_pos c 0) = decodable c) as Hn
    by (unfold decodable; by rewrite Hv0).
  destruct (grab_loop_counts (grab_fuel (cv2.set_pos c 0)) (cv2.set_pos c 0) 0 Ho0)
    as (c' & -> & Ho' & _).
  - rewrite Hp0, Hn. unfold decodable. lia.
  - rewrite Hp0, Hn. unfold grab_fuel, decodable. rewrite Hv0. lia.
  - simpl. exists (cv2.set_pos c' 0). rewrite Hp0, Hn.
    split; [do 2 f_equal; lia|]. by apply set_pos_opened.
Qed.

End probe.

(** C1, as stated, fails: the stream decodes frames 0 to 9 and no more, the
    container reports 5, and the probe answers 5, not 10, because frame 4,
    the last one reported, decodes. *)
Lemma probe_under_report_counterexample :
  cv2.isOpened under_reporting = true /\
  decodable under_reporting = 10 /\
  probed_count under_reporting = Ret 5.
Proof. repeat split. Qed.

(** The probe on an open stream, in full. *)
Lemma probe_frame_count_spec (c : cv2.VideoCapture) :
  cv2.isOpened c = true ->
  let N := decodable c in
  let R := cv2.CAP_PROP_FRAME_COUNT (cv2.video c) in
  let p := cv2.landing (cv2.video c) (R - 1) in
  exists c',
    _probe_frame_count c = Ret (probe_result N R p, c')
    /\ cv2.CAP_PROP_POS_FRAMES c' = 0.
Proof.
  intros Ho N R p. unfold _probe_frame_count, probe_result. fold R.
  destruct (Z.ltb_spec 0 R) as [HR|HR]; [|by apply grab_count_spec].
  destruct (set_pos_opened c (Z.max 0 (R - 1)) Ho) as (Ho1 & Hv1 & Hp1).
  set (c1 := cv2.set_pos c (Z.max 0 (R - 1))) in *.
  assert (decodable c1 = N) as Hn1 by (unfold decodable; by rewrite Hv1).
  unfold cv2.read. destruct (Z.leb_spec R N) as [Hle|Hgt].
  - destruct (decode_in_range c1 Ho1) as [f Hf]; [lia|]. rewrite Hf.
    eexists. split; [reflexivity|]. apply set_pos_opened, advance_opened, Ho1.
  - pose proof (decode_out_of_range c1 ltac:(lia)) as Hf. rewrite Hf.
    destruct (advance_opened c1 Ho1) as [Ho2 Hv2].
    pose proof (advance_pos_failure c1 Ho1 Hf) as Hp2.
    rewrite Hv1, Hp1 in Hp2. replace (Z.max 0 (R - 1)) with (R - 1) in Hp2 by lia.
    fold p in Hp2. rewrite Hp2.
    destruct (set_pos_opened (cv2.advance c1) 0 Ho2) as (Ho3 & Hv3 & Hp3).
    destruct (Z.ltb_spec 0 p) as [Hpos|Hnpos]; [by eexists|].
    destruct (grab_count_spec (cv2.set_pos (cv2.advance c1) 0) R Ho3) as (c' & -> & Hc').
    exists c'. split; [|done]. do 3 f_equal.
    rewrite <- Hn1. unfold decodable. by rewrite Hv3, Hv2.
Qed.

(** With an over-report and a backend that reports no position after the
    failed read, the grab count does not lower the answer: the reported
    count comes back. *)
Lemma probe_frame_count_reported_kept (c : cv2.VideoCapture) :
  cv2.isOpened c = true ->
  decodable c < cv2.CAP_PROP_FRAME_COUNT (cv2.video c) ->
  cv2.landing (cv2.video c) (cv2.CAP_PROP_FRAME_COUNT (cv2.video c) - 1) <= 0 ->
  probed_count c = Ret (cv2.CAP_PROP_FRAME_COUNT (cv2.video c)).
Proof.
  intros Ho HR Hp. unfold probed_count.
  destruct (probe_frame_count_spec c Ho) as (c' & -> & _). simpl. f_equal.
  unfold probe_result, decodable in *.
  repeat case_match; try lia;
    repeat match goal with
    | H : (_ <? _) = _ |- _ => apply Z.ltb_lt in H || apply Z.ltb_ge in H
    | H : (_ <=? _) = _ |- _ => apply Z.leb_le in H || apply Z.leb_gt in H
    end; lia.
Qed.

(** C1, amended: on an open stream that decodes exactly the frames
    [0 .. N-1] the probe returns, with the cursor back at 0,
    - [N] when the reported count [R] is zero or negative;
    - [R] when [0 < R <= N]: an under-report is taken as it is;
    - the position [p] the backend reports after the failed read of frame
      [R-1] when [N < R] and [p > 0]; this is [N] on a backend that lands
      on the end of the stream.
    In the first two cases, and in the third when [p <= N], no frame below
    the returned count fails to decode. *)
Theorem probe_frame_count_amended (c : cv2.VideoCapture) :
  cv2.isOpened c = true ->
  let N := decodable c in
  let R := cv2.CAP_PROP_FRAME_COUNT (cv2.video c) in
  let p := cv2.landing (cv2.video c) (R - 1) in
  exists count c',
    _probe_frame_count c = Ret (count, c')
    /\ cv2.CAP_PROP_POS_FRAMES c' = 0
    /\ (R <= 0 -> count = N)
    /\ (0 < R <= N -> count = R)
    /\ (N < R -> 0 < p -> count = p)
    /\ (R <= N \/ 0 < p <= N -> count <= N).
Proof.
  intros Ho N R p.
  destruct (probe_frame_count_spec c Ho) as (c' & Hrun & Hpos).
  exists (probe_result N R p), c'. split; [exact Hrun|]. split; [exact Hpos|].
  assert (0 <= N) as HN by (unfold N, decodable; lia).
  unfold probe_result.
  destruct (Z.ltb_spec 0 R), (Z.leb_spec R N), (Z.ltb_spec 0 p);
    split_and!; intros; lia.
Qed.

Lemma probe_frame_count_amended_witness :
  exists count c',
    _probe_frame_count over_reporting = Ret (count, c') /\ count = 10.
Proof.
  destruct (probe_frame_count_amended over_reporting eq_refl)
    as (count & c' & Hrun & _ & _ & _ & Hland & _).
  exists count, c'. split; [exact Hrun|]. apply Hland; vm_compute; reflexivity.
Defined.

(** ** Opening a video and reading frames *)

(** C5: when the backend cannot open the file, [load_video] answers [False]
    and leaves the frame count, the rate, the cursor, the ledger, the cache
    and the stored path as they were; the capture held before, if any, is
    released and stays in place, no new one is installed. *)
Theorem load_video_open_failure (d : Disk) (self : VideoAnnotatorCore) (filepath : string) :
  cv2.isOpened (cv2.open (videos d) filepath) = false ->
  exists self',
    load_video d self filepath = Ret (false, self')
    /\ frame_count self' = frame_count self
    /\ fps self' = fps self
    /\ current_frame self' = current_frame self
    /\ annotations self' = annotations self
    /\ frame_cache self' = frame_cache self
    /\ path self' = path self
    /\ cap self' = cv2.release <$> cap self.
Proof.
  intros Hfail. unfold load_video. rewrite Hfail. simpl.
  destruct (cap self) as [old|] eqn:Hold; (eexists; split; [reflexivity|]);
    simpl; by rewrite ?Hold.
Qed.

Lemma load_video_open_failure_witness :
  exists self',
    load_video empty_disk loaded "clips/none.mp4" = Ret (false, self')
    /\ frame_count self' = 5 /\ current_frame self' = 3
    /\ annotations self' = annotations loaded
    /\ path self' = Some "clips/run1.mp4"
    /\ cap self' = Some (cv2.release under_reporting).
Proof.
  destruct (load_video_open_failure empty_disk loaded "clips/none.mp4" eq_refl)
    as (self' & Hrun & Hcount & _ & Hcur & Hann & _ & Hpath & Hcap).
  exists self'. repeat split; assumption.
Defined.

(** C6: with a capture in place, [get_frame(-1)] and
    [get_frame(frame_count)] return [None] and change nothing; and when the
    cursor of the stream is past the last frame that decodes,
    [read_next_frame] returns [None] and leaves [current_frame] as it was. *)
Theorem frame_access_boundaries (self : VideoAnnotatorCore) (c : cv2.VideoCapture) :
  cap self = Some c ->
  get_frame self (-1) = (None, self)
  /\ get_frame self (frame_count self) = (None, self)
  /\ (decodable c <= cv2.CAP_PROP_POS_FRAMES c ->
      (read_next_frame self).1 = None
      /\ current_frame (read_next_frame self).2 = current_frame self).
Proof.
  intros Hcap. unfold get_frame, read_next_frame. rewrite Hcap. split_and!.
  - done.
  - by rewrite Z.leb_refl, orb_true_r.
  - intros Hend. unfold cv2.read. by rewrite (decode_out_of_range c Hend).
Qed.

Lemma frame_access_boundaries_witness :
  get_frame exhausted (-1) = (None, exhausted)
  /\ get_frame exhausted 5 = (None, exhausted)
  /\ (read_next_frame exhausted).1 = None
  /\ current_frame (read_next_frame exhausted).2 = 3.
Proof.
  destruct (frame_access_boundaries exhausted (cv2.set_pos under_reporting 10) eq_refl)
    as (Hneg & Hcount & Hnext).
  split; [exact Hneg|]. split; [exact Hcount|].
  apply Hnext. vm_compute. discriminate.
Defined.

Section cache.

Lemma load_csv_frame (d : Disk) (self self' : VideoAnnotatorCore) (csv_path : string) :
  load_csv d self csv_path = Ret self' ->
  cap self' = cap self /\ path self' = path self
  /\ frame_count self' = frame_count self /\ fps self' = fps self
  /\ current_frame self' = current_frame self
  /\ frame_cache self' = frame_cache self.
Proof.
  unfold load_csv. destruct (files d !! csv_path) as [f|]; [|by intros [= <-]].
  destruct (load_rows _ _); simpl; [|done..]. by intros [= <-].
Qed.

Lemma prime_loop_length (n : nat) (c : cv2.VideoCapture) (cache : list cv2.ndarray) :
  (length (prime_loop n c cache).2 <= length cache + n)%nat.
Proof.
  revert c cache. induction n as [|n IH]; intros c cache; simpl; [lia|].
  destruct (cv2.decode c) as [frame|]; simpl; [|lia].
  etrans; [apply IH|]. rewrite length_app. simpl. lia.
Qed.

(** What a successful [load_video] establishes and the frame access
    relies on. *)
Lemma load_video_cache (d : Disk) (self self' : VideoAnnotatorCore) (filepath : string) :
  load_video d self filepath = Ret (true, self') ->
  is_Some (cap self')
  /\ Z.of_nat (length (frame_cache self')) <= Z.min 60 (Z.max 0 (frame_count self')).
Proof.
  unfold load_video.
  destruct (negb (cv2.isOpened _)); [done|].
  destruct (_probe_frame_count _) as [[count c]| |]; simpl; [|done..].
  destruct (load_csv _ _ _) as [self1| |] eqn:Hload; simpl; [|done..].
  apply load_csv_frame in Hload as (_ & _ & Hcount & _). simpl in Hcount.
  destruct (prime_loop _ _ _) as [c2 cache] eqn:Hprime.
  intros [= <-]. simpl. split; [by eexists|].
  pose proof (prime_loop_length (Z.to_nat (Z.min 60 (frame_count self1)))
                (cv2.set_pos c 0) []) as Hlen.
  rewrite Hprime in Hlen. simpl in Hlen. lia.
Qed.

End cache.

(** C8: after a successful [load_video], [get_frame(i)] for an index [i]
    inside the primed cache returns the cached frame, never [None], and
    sets [current_frame] to [i]; the capture is not touched. *)
Theorem get_frame_cached (d : Disk) (self self' : VideoAnnotatorCore)
    (filepath : string) (i : Z) :
  load_video d self filepath = Ret (true, self') ->
  0 <= i < Z.of_nat (length (frame_cache self')) ->
  exists frame,
    frame_cache self' !! Z.to_nat i = Some frame
    /\ get_frame self' i = (Some frame, with_current_frame self' i).
Proof.
  intros Hload Hi.
  destruct (load_video_cache d self self' filepath Hload) as [[c Hcap] Hlen].
  destruct (lookup_lt_is_Some_2 (frame_cache self') (Z.to_nat i)) as [frame Hframe];
    [lia|].
  exists frame. split; [done|]. unfold get_frame. rewrite Hcap.
  replace (i <? 0) with false by (symmetry; apply Z.ltb_ge; lia).
  replace (frame_count self' <=? i) with false by (symmetry; apply Z.leb_gt; lia).
  replace (i <? Z.of_nat (length (frame_cache self'))) with true
    by (symmetry; apply Z.ltb_lt; lia).
  simpl. by rewrite Hframe.
Qed.

Lemma get_frame_cached_witness :
  exists frame,
    frame_cache opened !! 1%nat = Some frame
    /\ get_frame opened 1 = (Some frame, with_current_frame opened 1).
Proof.
  apply (get_frame_cached one_video init opened "clips/run1.mp4" 1).
  - vm_compute. reflexivity.
  - split; vm_compute; congruence.
Defined.

(** ** The sidecar: what is written and what is read back *)

Section sidecar.

Implicit Types (m : gmap Z Label) (row : gmap string (option string)).

Lemma row_dict_csv_row (a b c : string) :
  csv.row_dict csv_header [a; b; c]
  = <["group" := Some c]> (<["mode" := Some b]> (<["frame" := Some a]> ∅)).
Proof. reflexivity. Qed.

Lemma row_dict_csv_row_lookups (a b c : string) :
  let row := csv.row_dict csv_header [a; b; c] in
  row !! "frame" = Some (Some a) /\ row !! "mode" = Some (Some b)
  /\ row !! "group" = Some (Some c) /\ row !! "tag" = None
  /\ row !! "name" = None /\ row !! "label" = None.
Proof. repeat split; vm_compute; reflexivity. Qed.

Lemma load_row_csv_row m (k : Z) (l : Label) :
  load_row m (csv.row_dict csv_header (csv_row k l))
  = Ret (if decide (mode l = "") then m else <[k := reloaded l]> m).
Proof.
  unfold csv_row.
  destruct (row_dict_csv_row_lookups (Py.str k) (mode l) (csv.field (group l)))
    as (Hframe & Hmode & Hgroup & Htag & Hname & Hlabel).
  unfold load_row, frame_of_row, mode_val, group_val, get, get_or.
  rewrite Hframe, Hmode, Hgroup, Htag, Hname, Hlabel, int_str. simpl.
  unfold Py.or, Py.truthy. simpl.
  destruct (decide (mode l = "")) as [->|Hne]; [reflexivity|].
  apply String.eqb_neq in Hne. do 3 (rewrite ?Hne; simpl).
  unfold reloaded.
  destruct (String.eqb (csv.field (group l)) "") eqn:Hg; simpl; [|done].
  apply String.eqb_eq in Hg. by rewrite Hg.
Qed.

Lemma sorted_frames_elem m (k : Z) : k ∈ sorted_frames m <-> is_Some (m !! k).
Proof.
  unfold sorted_frames. rewrite merge_sort_Permutation, elem_of_elements.
  apply elem_of_dom.
Qed.

Lemma sorted_frames_ascending m : StronglySorted Z.lt (sorted_frames m).
Proof.
  unfold sorted_frames.
  assert (NoDup (merge_sort Z.le (elements (dom m)))) as Hnd
    by (rewrite merge_sort_Permutation; apply NoDup_elements).
  pose proof (StronglySorted_merge_sort Z.le (elements (dom m))) as Hs.
  induction Hs as [|x l Hs IH Hx]; [constructor|].
  apply NoDup_cons in Hnd as [Hnotin Hnd]. constructor; [auto|].
  apply Forall_forall. intros y Hy.
  rewrite Forall_forall in Hx. specialize (Hx y Hy).
  assert (x <> y) by (intros ->; done). lia.
Qed.

Lemma load_rows_csv_rows m (ks : list Z) (acc : gmap Z Label) :
  load_rows acc
    (csv.row_dict csv_header
       <$> filter (fun r => r <> []) ((fun k => csv_row k (m !!! k)) <$> ks))
  = Ret (fold_left (restore m) ks acc).
Proof.
  revert acc. induction ks as [|k ks IH]; intros acc; [done|].
  rewrite fmap_cons, filter_cons_True by done. rewrite fmap_cons. simpl.
  rewrite load_row_csv_row. simpl. apply IH.
Qed.

Lemma restore_lookup m (ks : list Z) (acc : gmap Z Label) (i : Z) :
  fold_left (restore m) ks acc !! i
  = if decide (i ∈ ks /\ mode (m !!! i) <> "")
    then Some (reloaded (m !!! i)) else acc !! i.
Proof.
  revert acc. induction ks as [|k ks IH]; intros acc; cbn [fold_left].
  - rewrite decide_False; [done|]. intros [H _]. by apply elem_of_nil in H.
  - rewrite IH. unfold restore.
    destruct (decide (i ∈ ks /\ mode (m !!! i) <> "")) as [[Hin Hm]|Hno].
    + rewrite decide_True; [done|]. split; [by right|done].
    + destruct (decide (i = k)) as [->|Hik].
      * destruct (decide (mode (m !!! k) = "")) as [He|Hne].
        -- rewrite decide_False; [done|]. intros [_ ?]. done.
        -- rewrite lookup_insert_eq. rewrite decide_True; [done|].
           split; [by left|done].
      * assert ((if decide (mode (m !!! k) = "") then acc
                 else <[k:=reloaded (m !!! k)]> acc) !! i = acc !! i) as ->.
        { case_decide; [done|]. by rewrite lookup_insert_ne. }
        rewrite decide_False; [done|].
        intros [Hin Hm]. apply elem_of_cons in Hin as [?|?]; [done|].
        apply Hno. done.
Qed.

(** What a reload gives: every entry with a mode comes back, with its
    group as a string; the entries with the empty mode do not. *)
Lemma reload_spec m :
  reload m = Ret (reloaded <$> filter (fun kv => mode kv.2 <> "") m).
Proof.
  unfold reload, csv_rows. simpl. rewrite load_rows_csv_rows. f_equal.
  apply map_eq. intros i. rewrite restore_lookup, lookup_fmap, map_lookup_filter.
  rewrite lookup_empty.
  destruct (m !! i) as [l|] eqn:Hl; simpl.
  - rewrite (lookup_total_correct m i l Hl).
    destruct (decide (mode l <> "")) as [Hm|Hm].
    + rewrite decide_True by (split; [apply sorted_frames_elem; by eexists|done]).
      by rewrite option_guard_True.
    + rewrite decide_False by (intros [_ ?]; done).
      by rewrite option_guard_False.
  - rewrite decide_False; [done|]. intros [Hin _].
    apply sorted_frames_elem in Hin. rewrite Hl in Hin. by destruct Hin.
Qed.

End sidecar.

Section save_load.

Implicit Types (d : Disk) (self : VideoAnnotatorCore).

Lemma save_csv_file d self (p : string) :
  path self = Some p -> p <> "" ->
  files (save_csv d self) !! derive_csv_path self
  = Some (csv_header :: csv_rows (annotations self)).
Proof.
  intros Hp Hne. unfold save_csv. rewrite Hp.
  destruct p as [|a p]; [done|]. simpl. apply lookup_insert_eq.
Qed.

Lemma save_then_load_spec d self (p : string) :
  path self = Some p -> p <> "" ->
  save_then_load d self
  = Ret (with_annotations self
           (reloaded <$> filter (fun kv => mode kv.2 <> "") (annotations self))).
Proof.
  intros Hp Hne. unfold save_then_load, load_csv.
  rewrite (save_csv_file d self p Hp Hne).
  change (load_rows _ _) with (reload (annotations self)).
  by rewrite reload_spec.
Qed.

Lemma reloaded_id (m : gmap Z Label) :
  map_Forall (fun _ l => mode l <> "" /\ is_Some (group l)) m ->
  reloaded <$> filter (fun kv => mode kv.2 <> "") m = m.
Proof.
  intros Hm. apply map_eq. intros i. rewrite lookup_fmap, map_lookup_filter.
  destruct (m !! i) as [l|] eqn:Hl; simpl; [|done].
  destruct (Hm i l Hl) as [Hmode [g Hg]].
  rewrite option_guard_True by done. simpl.
  unfold reloaded. destruct l as [md gr]. simpl in *. by rewrite Hg.
Qed.

Lemma with_annotations_id self : with_annotations self (annotations self) = self.
Proof. by destruct self. Qed.

End save_load.

(** C2: a ledger in which every entry has a non-empty mode (and a string,
    possibly empty, for its group) is the same after [save_csv] and a
    [load_csv] of the written file into the emptied ledger. *)
Theorem save_load_roundtrip (d : Disk) (self : VideoAnnotatorCore) (p : string) :
  path self = Some p -> p <> "" ->
  map_Forall (fun _ l => mode l <> "" /\ is_Some (group l)) (annotations self) ->
  save_then_load d self = Ret self.
Proof.
  intros Hp Hne Hm. rewrite (save_then_load_spec d self p Hp Hne).
  by rewrite (reloaded_id _ Hm), with_annotations_id.
Qed.

Lemma save_load_roundtrip_witness : save_then_load empty_disk labelled = Ret labelled.
Proof.
  apply (save_load_roundtrip empty_disk labelled "clips/run1.mp4").
  - reflexivity.
  - discriminate.
  - apply (bool_decide_unpack _). vm_compute. exact I.
Defined.

(** C9: an entry with the empty mode is written by [save_csv] like any
    other, its row is passed over by [load_csv], and so the reload holds the
    entries with a mode and no other: it differs from the ledger that was
    saved. *)
Theorem empty_mode_dropped (d : Disk) (self : VideoAnnotatorCore)
    (p : string) (k : Z) (l : Label) :
  path self = Some p -> p <> "" ->
  map_Forall (fun _ l => is_Some (group l)) (annotations self) ->
  annotations self !! k = Some l -> mode l = "" ->
  (exists rows,
     files (save_csv d self) !! derive_csv_path self = Some (csv_header :: rows)
     /\ csv_row k l ∈ rows)
  /\ (forall acc, load_row acc (csv.row_dict csv_header (csv_row k l)) = Ret acc)
  /\ save_then_load d self
     = Ret (with_annotations self
              (filter (fun kv => mode kv.2 <> "") (annotations self)))
  /\ save_then_load d self <> Ret self.
Proof.
  intros Hp Hne Hgroups Hk Hmode.
  assert (save_then_load d self
          = Ret (with_annotations self
                   (filter (fun kv => mode kv.2 <> "") (annotations self)))) as Hreload.
  { rewrite (save_then_load_spec d self p Hp Hne). do 2 f_equal.
    rewrite <- (reloaded_id (filter _ (annotations self))) at 2.
    - by rewrite map_filter_filter_l.
    - intros i x [Hx Hmx]%map_lookup_filter_Some. split; [done|]. by apply (Hgroups i). }
  split_and!.
  - exists (csv_rows (annotations self)). split; [by apply (save_csv_file d self p)|].
    unfold csv_rows. apply list_elem_of_fmap. exists k.
    rewrite (lookup_total_correct _ _ _ Hk). split; [done|].
    apply sorted_frames_elem. by eexists.
  - intros acc. rewrite load_row_csv_row. by rewrite decide_True.
  - exact Hreload.
  - rewrite Hreload. intros [= Heq].
    assert (annotations (with_annotations self
              (filter (fun kv => mode kv.2 <> "") (annotations self))) !! k = Some l)
      as Hl by (by rewrite Heq).
    simpl in Hl. apply map_lookup_filter_Some in Hl as [_ Hl]. done.
Qed.

Lemma empty_mode_dropped_witness :
  save_then_load empty_disk with_empty_mode
  = Ret (with_annotations with_empty_mode
           (filter (fun kv => mode kv.2 <> "") (annotations with_empty_mode)))
  /\ save_then_load empty_disk with_empty_mode <> Ret with_empty_mode.
Proof.
  assert (map_Forall (fun _ l => is_Some (group l)) (annotations with_empty_mode))
    as Hgroups by (apply (bool_decide_unpack _); vm_compute; exact I).
  assert (annotations with_empty_mode !! 3 = Some {| mode := ""; group := Some "left" |})
    as Hk by (vm_compute; reflexivity).
  assert ("clips/run1.mp4" <> "") as Hne by discriminate.
  destruct (empty_mode_dropped empty_disk with_empty_mode "clips/run1.mp4" 3
              {| mode := ""; group := Some "left" |} eq_refl Hne Hgroups Hk eq_refl)
    as (_ & _ & Hreload & Hdiff).
  split; [exact Hreload|exact Hdiff].
Defined.

(** C7: with a source path stored, [set_label(frame, mode, group)] puts the
    entry in the ledger, for any integer [frame], and rewrites the sidecar
    whole: after the call the file is the header followed by one row per
    entry of the ledger, the frames in ascending order. *)
Theorem set_label_persists (d : Disk) (self : VideoAnnotatorCore) (p : string)
    (frame : Z) (mode_ : string) (group_ : option string) :
  path self = Some p -> p <> "" ->
  let '(self', d') := set_label d self frame mode_ group_ in
  annotations self' !! frame = Some {| mode := mode_; group := group_ |}
  /\ (forall k, k <> frame -> annotations self' !! k = annotations self !! k)
  /\ exists frames,
       StronglySorted Z.lt frames
       /\ (forall k, k ∈ frames <-> is_Some (annotations self' !! k))
       /\ files d' !! derive_csv_path self'
          = Some (["frame"; "mode"; "group"]
                    :: ((fun k => [Py.str k; mode (annotations self' !!! k);
                                   default "" (group (annotations self' !!! k))])
                          <$> frames)).
Proof.
  intros Hp Hne. unfold set_label.
  set (self' := with_annotations self _).
  split_and!.
  - apply lookup_insert_eq.
  - intros k Hk. simpl. by rewrite lookup_insert_ne.
  - exists (sorted_frames (annotations self')). split_and!.
    + apply sorted_frames_ascending.
    + apply sorted_frames_elem.
    + by rewrite (save_csv_file d self' p Hp Hne).
Qed.

Lemma set_label_persists_witness :
  let '(self', d') := set_label empty_disk labelled (-1) "look" (Some "right") in
  annotations self' !! (-1) = Some {| mode := "look"; group := Some "right" |}
  /\ files d' !! "clips/run1_labels.csv"
     = Some [["frame"; "mode"; "group"]; ["-1"; "look"; "right"];
             ["2"; "look"; "left"]; ["4"; "blink"; ""]].
Proof.
  pose proof (set_label_persists empty_disk labelled "clips/run1.mp4" (-1) "look"
                (Some "right") eq_refl ltac:(discriminate)) as H.
  destruct (set_label empty_disk labelled (-1) "look" (Some "right")) as [self' d'] eqn:Hrun.
  destruct H as (Hentry & _ & _).
  split; [exact Hentry|].
  injection Hrun as <- <-. vm_compute. reflexivity.
Defined.

(** ** Reading a sidecar that [save_csv] did not write *)

(** C4, as stated, fails: [int(row["frame"])] comes first in the loop, and
    on the row [abc,look,left] it raises [ValueError], which [load_csv]
    does not catch. *)
Lemma load_csv_raises_counterexample :
  load_csv bad_frame init "clips/run1_labels.csv" = Raise (Py.ValueError "abc").
Proof. vm_compute. reflexivity. Qed.

Section lenient.

Implicit Types (row : gmap string (option string)) (acc : gmap Z Label).

Lemma load_row_readable acc row :
  frame_readable row <-> exists acc', load_row acc row = Ret acc'.
Proof.
  unfold frame_readable, load_row. split.
  - intros [z ->]. simpl. destruct (mode_val row); [|by eexists].
    destruct (negb _); by eexists.
  - destruct (frame_of_row row) as [z| |]; simpl; [by eexists|..];
      intros [? ?]; done.
Qed.

Lemma load_rows_readable acc (rows : list (gmap string (option string))) :
  Forall frame_readable rows <-> exists acc', load_rows acc rows = Ret acc'.
Proof.
  revert acc. induction rows as [|row rows IH]; intros acc; simpl.
  - split; [by eexists|constructor].
  - split.
    + intros [Hrow Hrows]%Forall_cons.
      apply (load_row_readable acc) in Hrow as [acc1 ->]. simpl. by apply IH.
    + destruct (load_row acc row) as [acc1| |] eqn:Hrow; simpl;
        [|intros [? ?]; done..].
      intros Hrows. constructor.
      * apply (load_row_readable acc). by eexists.
      * by apply (IH acc1).
Qed.

Lemma load_rows_ends acc (rows : list (gmap string (option string))) :
  load_rows acc rows <> OutOfFuel.
Proof.
  revert acc. induction rows as [|row rows IH]; intros acc; simpl; [done|].
  unfold load_row at 1. destruct (frame_of_row row) as [z| |] eqn:Hz; simpl; [|done|].
  - destruct (mode_val row); [destruct (negb _)|]; simpl; apply IH.
  - unfold frame_of_row in Hz. repeat case_match; done.
Qed.

Lemma load_csv_ends (d : Disk) (self : VideoAnnotatorCore) (csv_path : string) :
  load_csv d self csv_path <> OutOfFuel.
Proof.
  unfold load_csv. destruct (files d !! csv_path) as [f|]; [|done].
  pose proof (load_rows_ends (annotations self) (csv.DictReader f)) as Hends.
  by destruct (load_rows _ _).
Qed.

Lemma load_row_skips acc row :
  frame_readable row -> Py.truthy (mode_val row) = false -> load_row acc row = Ret acc.
Proof.
  intros [z Hz] Hmode. unfold load_row. rewrite Hz. simpl.
  destruct (mode_val row); [|done]. by rewrite Hmode.
Qed.

End lenient.

Section merging.

Implicit Types (row : gmap string (option string)) (acc m : gmap Z Label).

Lemma load_row_stores acc row (k : Z) (l : Label) :
  stores row k l -> load_row acc row = Ret (<[k := l]> acc).
Proof.
  intros (Hk & Hm & Hne & Hg). unfold load_row. rewrite Hk, Hm. simpl.
  apply String.eqb_neq in Hne. rewrite Hne. simpl. rewrite Hg. by destruct l.
Qed.

Lemma load_row_passes acc acc' row (k : Z) :
  passes k row -> load_row acc row = Ret acc' -> acc' !! k = acc !! k.
Proof.
  intros Hpass. unfold load_row.
  destruct (frame_of_row row) as [z| |] eqn:Hz; simpl; [|done..].
  destruct (mode_val row) as [md|] eqn:Hmd; [|by intros [= <-]].
  destruct (negb (Py.truthy (Some md))) eqn:Ht; [by intros [= <-]|].
  intros [= <-]. destruct Hpass as [Hk|Hk].
  - rewrite lookup_insert_ne; [done|]. by intros ->.
  - apply negb_false_iff in Ht. congruence.
Qed.

Lemma load_rows_passes acc m (rows : list (gmap string (option string))) (k : Z) :
  Forall (passes k) rows -> load_rows acc rows = Ret m -> m !! k = acc !! k.
Proof.
  revert acc. induction rows as [|row rows IH]; intros acc Hpass; simpl.
  - by intros [= <-].
  - apply Forall_cons in Hpass as [Hrow Hrows].
    destruct (load_row acc row) as [acc1| |] eqn:Hload; simpl; [|done..].
    intros Hrest. rewrite (IH acc1 Hrows Hrest).
    by apply (load_row_passes acc acc1 row).
Qed.

Lemma load_rows_app acc m (before after : list (gmap string (option string))) :
  load_rows acc (before ++ after) = Ret m ->
  exists acc1, load_rows acc before = Ret acc1 /\ load_rows acc1 after = Ret m.
Proof.
  revert acc. induction before as [|row before IH]; intros acc; simpl.
  - by eexists.
  - destruct (load_row acc row) as [acc1| |]; simpl; [|done..]. apply IH.
Qed.

(** The rows before a split of the rows loaded, the rest follows. *)
Lemma load_rows_app_ret acc acc1 (before after : list (gmap string (option string))) :
  load_rows acc before = Ret acc1 ->
  load_rows acc (before ++ after) = load_rows acc1 after.
Proof.
  revert acc. induction before as [|row before IH]; intros acc; simpl.
  - by intros [= ->].
  - destruct (load_row acc row) as [acc2| |]; simpl; [|done..]. apply IH.
Qed.

(** The dictionaries of a file around one of its rows that is not blank. *)
Lemma DictReader_split (fieldnames row : list string) (before after : list (list string)) :
  row <> [] ->
  csv.DictReader (fieldnames :: before ++ row :: after)
  = (csv.DictReader (fieldnames :: before)
     ++ csv.row_dict fieldnames row :: csv.DictReader (fieldnames :: after))%list.
Proof.
  intros Hrow. unfold csv.DictReader.
  rewrite filter_app, filter_cons_True by done. by rewrite fmap_app, fmap_cons.
Qed.

(** [load_csv] of a file in which the row [row] is the last that stores a
    label for the frame [k]: the call returns when every frame is read,
    and the ledger holds that label. *)
Lemma load_csv_last_row (d : Disk) (self : VideoAnnotatorCore) (csv_path : string)
    (fieldnames row : list string) (before after : list (list string))
    (k : Z) (l : Label) :
  files d !! csv_path = Some (fieldnames :: before ++ row :: after) ->
  row <> [] ->
  Forall frame_readable (csv.DictReader (fieldnames :: before ++ row :: after)) ->
  stores (csv.row_dict fieldnames row) k l ->
  Forall (passes k) (csv.DictReader (fieldnames :: after)) ->
  exists self',
    load_csv d self csv_path = Ret self' /\ annotations self' !! k = Some l.
Proof.
  intros Hf Hrow Hread Hst Hafter. unfold load_csv. rewrite Hf.
  destruct (proj1 (load_rows_readable (annotations self) _) Hread) as [m' Hm].
  rewrite Hm. simpl. eexists. split; [done|]. simpl.
  rewrite (DictReader_split fieldnames row before after Hrow) in Hm.
  apply load_rows_app in Hm as (acc1 & _ & Hm). simpl in Hm.
  rewrite (load_row_stores acc1 _ k l Hst) in Hm. simpl in Hm.
  rewrite (load_rows_passes _ m' _ k Hafter Hm). apply lookup_insert_eq.
Qed.

(** [load_csv] of a file whose first row with an unreadable frame is
    [row]: the call ends with the exception of that row. *)
Lemma load_csv_first_bad_row (d : Disk) (self : VideoAnnotatorCore) (csv_path : string)
    (fieldnames row : list string) (before after : list (list string)) (e : Py.exn) :
  files d !! csv_path = Some (fieldnames :: before ++ row :: after) ->
  row <> [] ->
  Forall frame_readable (csv.DictReader (fieldnames :: before)) ->
  frame_of_row (csv.row_dict fieldnames row) = Raise e ->
  load_csv d self csv_path = Raise e.
Proof.
  intros Hf Hrow Hread He. unfold load_csv. rewrite Hf.
  destruct (proj1 (load_rows_readable (annotations self) _) Hread) as [acc1 Hm].
  rewrite (DictReader_split fieldnames row before after Hrow).
  rewrite (load_rows_app_ret _ acc1 _ _ Hm). simpl.
  unfold load_row. by rewrite He.
Qed.

End merging.

(** [load_video] comes back, with an answer or with the exception of
    [load_csv]: the probe does not run out of fuel. *)
Lemma load_video_ends (d : Disk) (self : VideoAnnotatorCore) (filepath : string) :
  load_video d self filepath <> OutOfFuel.
Proof.
  unfold load_video.
  destruct (cv2.isOpened (cv2.open (videos d) filepath)) eqn:Ho; simpl; [|done].
  destruct (probe_frame_count_spec _ Ho) as (c' & -> & _). simpl.
  match goal with |- context [load_csv ?d ?s ?p] =>
    pose proof (load_csv_ends d s p) as Hends; destruct (load_csv d s p) end;
    simpl; [|done..].
  by destruct (prime_loop _ _ _).
Qed.

(** C4, amended: [load_csv] returns to its caller exactly when every row
    the reader yields has a frame field that [int] reads (always, then,
    when there is no file); it changes nothing but the ledger, and a row
    whose frame is read and that has no usable mode leaves the ledger as it
    is.  A row whose frame field is missing, [None] or not an integer
    literal ends the call with an exception. *)
Theorem load_csv_lenient (d : Disk) (self : VideoAnnotatorCore) (csv_path : string) :
  ((exists self', load_csv d self csv_path = Ret self')
   <-> (forall f, files d !! csv_path = Some f -> Forall frame_readable (csv.DictReader f)))
  /\ load_csv d self csv_path <> OutOfFuel
  /\ (forall self', load_csv d self csv_path = Ret self' ->
      cap self' = cap self /\ path self' = path self
      /\ frame_count self' = frame_count self /\ current_frame self' = current_frame self
      /\ frame_cache self' = frame_cache self)
  /\ (forall acc row,
        frame_readable row -> Py.truthy (mode_val row) = false ->
        load_row acc row = Ret acc).
Proof.
  split_and!.
  - unfold load_csv. destruct (files d !! csv_path) as [f|].
    + split.
      * intros [self' Hrun] f' [= <-].
        apply (load_rows_readable (annotations self)).
        destruct (load_rows _ _); [by eexists|done..].
      * intros Hrows.
        destruct (proj1 (load_rows_readable (annotations self) _) (Hrows f eq_refl))
          as [acc' ->].
        by eexists.
    + split; [done|]. by eexists.
  - apply load_csv_ends.
  - intros self' Hrun.
    apply load_csv_frame in Hrun as (? & ? & ? & _ & ? & ?). done.
  - apply load_row_skips.
Qed.

Lemma load_csv_lenient_witness :
  load_csv no_mode_row init "clips/run1_labels.csv"
  = Ret (with_annotations init {[ 4 := {| mode := "look"; group := Some "" |} ]})
  /\ load_row ∅ (csv.row_dict ["frame"; "mode"; "group"] ["3"; ""; "left"]) = Ret ∅.
Proof.
  destruct (load_csv_lenient no_mode_row init "clips/run1_labels.csv")
    as (Hreturns & _ & _ & Hskip).
  split.
  - vm_compute. reflexivity.
  - apply Hskip; [exists 3|]; vm_compute; reflexivity.
Defined.

(** C10: the legacy columns are read not only when the first column is
    missing but also when it is there and empty.  [load_csv] of a file
    whose frames are all read returns, and for the last row of the file
    that stores a label for its frame,
    - an empty [group] with a non-empty [label] loads the label as the
      group, for whatever usable mode the row has;
    - an empty [mode] loads the first non-empty of [tag] and [name] as the
      mode. *)
Theorem legacy_fallback_on_empty (d : Disk) (self : VideoAnnotatorCore)
    (csv_path : string) (fieldnames row : list string)
    (before after : list (list string)) (z : Z) :
  files d !! csv_path = Some (fieldnames :: before ++ row :: after) ->
  row <> [] ->
  Forall frame_readable (csv.DictReader (fieldnames :: before ++ row :: after)) ->
  frame_of_row (csv.row_dict fieldnames row) = Ret z ->
  Forall (passes z) (csv.DictReader (fieldnames :: after)) ->
  exists self',
    load_csv d self csv_path = Ret self'
    /\ (forall md lab,
          mode_val (csv.row_dict fieldnames row) = Some md -> md <> "" ->
          csv.row_dict fieldnames row !! "group" = Some (Some "") ->
          csv.row_dict fieldnames row !! "label" = Some (Some lab) -> lab <> "" ->
          annotations self' !! z = Some {| mode := md; group := Some lab |})
    /\ (forall t,
          csv.row_dict fieldnames row !! "mode" = Some (Some "") ->
          (get (csv.row_dict fieldnames row) "tag" = Some t
           \/ Py.truthy (get (csv.row_dict fieldnames row) "tag") = false
              /\ get (csv.row_dict fieldnames row) "name" = Some t) ->
          t <> "" ->
          annotations self' !! z
          = Some {| mode := t; group := group_val (csv.row_dict fieldnames row) |}).
Proof.
  intros Hf Hrow Hread Hz Hafter.
  set (r := csv.row_dict fieldnames row) in *.
  assert (forall l, stores r z l ->
            exists self', load_csv d self csv_path = Ret self'
                          /\ annotations self' !! z = Some l) as Hlast.
  { intros l Hst.
    by apply (load_csv_last_row d self csv_path fieldnames row before after). }
  assert (exists self', load_csv d self csv_path = Ret self') as [self' Hrun].
  { unfold load_csv. rewrite Hf.
    destruct (proj1 (load_rows_readable (annotations self) _) Hread) as [m' ->].
    by eexists. }
  exists self'. split; [done|]. split.
  - intros md lab Hmd Hne Hgroup Hlabel Hlab.
    assert (group_val r = Some lab) as Hg.
    { unfold group_val, get, get_or, Py.or. by rewrite Hgroup, Hlabel. }
    destruct (Hlast {| mode := md; group := Some lab |}) as (s' & Hrun' & Hl);
      [by repeat split|].
    rewrite Hrun in Hrun'. by injection Hrun' as <-.
  - intros t Hmode Hsyn Ht.
    assert (mode_val r = Some t) as Hm.
    { assert (get r "mode" = Some "") as Hgm by (unfold get; by rewrite Hmode).
      pose proof Ht as Ht'. apply String.eqb_neq in Ht'.
      unfold mode_val, Py.or. rewrite Hgm. simpl.
      destruct Hsyn as [Htag|[Htag Hname]].
      - rewrite Htag. simpl. by rewrite Ht'.
      - by rewrite Htag. }
    destruct (Hlast {| mode := t; group := group_val r |}) as (s' & Hrun' & Hl);
      [by repeat split|].
    rewrite Hrun in Hrun'. by injection Hrun' as <-.
Qed.

Lemma legacy_fallback_on_empty_witness :
  exists self',
    load_csv legacy_sidecar init "clips/run1_labels.csv" = Ret self'
    /\ annotations self' !! 4 = Some {| mode := "blink"; group := Some "left" |}.
Proof.
  destruct (legacy_fallback_on_empty legacy_sidecar init "clips/run1_labels.csv"
              legacy_columns ["4"; ""; ""; ""; "blink"; "left"] [] [] 4)
    as (self' & Hrun & Hgroup & Hmode).
  - reflexivity.
  - discriminate.
  - apply Forall_cons. split; [exists 4; reflexivity|constructor].
  - reflexivity.
  - constructor.
  - exists self'. split; [exact Hrun|].
    apply (Hgroup "blink" "left"); [reflexivity|discriminate|reflexivity|reflexivity
                                   |discriminate].
Defined.

(** ** Filling between two labels *)

Section fill.

Import GazeEncoderApp.
Implicit Types (a : VideoAnnotatorCore) (m : gmap Z Label).

(** Scanning down finds the nearest label at or below the start. *)
Lemma find_loop_down fuel a (start p : Z) (lp : Label) :
  0 <= p <= start -> start < frame_count a ->
  annotations a !! p = Some lp ->
  (forall i, p < i <= start -> annotations a !! i = None) ->
  (Z.to_nat (start - p) < fuel)%nat ->
  find_loop fuel a start (-1) = Some (Some (p, lp)).
Proof.
  revert start. induction fuel as [|fuel IH]; intros start Hp Hs Hlp Hgap Hf; [lia|].
  simpl.
  replace (0 <=? start) with true by (symmetry; apply Z.leb_le; lia).
  replace (start <? frame_count a) with true by (symmetry; apply Z.ltb_lt; lia).
  simpl. destruct (decide (start = p)) as [->|Hne].
  - by rewrite Hlp.
  - rewrite Hgap by lia. apply IH; [lia|lia|done| |lia].
    intros i Hi. apply Hgap. lia.
Qed.

(** Scanning up finds the nearest label at or above the start. *)
Lemma find_loop_up fuel a (start n : Z) (ln : Label) :
  0 <= start <= n -> n < frame_count a ->
  annotations a !! n = Some ln ->
  (forall i, start <= i < n -> annotations a !! i = None) ->
  (Z.to_nat (n - start) < fuel)%nat ->
  find_loop fuel a start 1 = Some (Some (n, ln)).
Proof.
  revert start. induction fuel as [|fuel IH]; intros start Hp Hs Hln Hgap Hf; [lia|].
  simpl.
  replace (0 <=? start) with true by (symmetry; apply Z.leb_le; lia).
  replace (start <? frame_count a) with true by (symmetry; apply Z.ltb_lt; lia).
  simpl. destruct (decide (start = n)) as [->|Hne].
  - by rewrite Hln.
  - rewrite Hgap by lia. apply IH; [lia|lia|done| |lia].
    intros i Hi. apply Hgap. lia.
Qed.

(** With the fuel [_find_neighbor_label] gives, both scans end. *)
Lemma find_loop_down_ends fuel a (idx : Z) :
  (Z.to_nat (idx + 1) < fuel)%nat -> is_Some (find_loop fuel a idx (-1)).
Proof.
  revert idx. induction fuel as [|fuel IH]; intros idx Hf; [lia|]. simpl.
  destruct ((0 <=? idx) && (idx <? frame_count a)) eqn:Hin; [|by eexists].
  destruct (annotations a !! idx); [by eexists|].
  apply andb_prop in Hin as [H0%Z.leb_le _]. apply IH. lia.
Qed.

Lemma find_loop_up_ends fuel a (idx : Z) :
  (Z.to_nat (frame_count a - idx) < fuel)%nat -> is_Some (find_loop fuel a idx 1).
Proof.
  revert idx. induction fuel as [|fuel IH]; intros idx Hf; [lia|]. simpl.
  destruct ((0 <=? idx) && (idx <? frame_count a)) eqn:Hin; [|by eexists].
  destruct (annotations a !! idx); [by eexists|].
  apply andb_prop in Hin as [_ H1%Z.ltb_lt]. apply IH. lia.
Qed.

Lemma find_neighbor_returns a (start : Z) :
  (exists r, _find_neighbor_label a start (-1) = Ret r)
  /\ (exists r, _find_neighbor_label a start 1 = Ret r).
Proof.
  unfold _find_neighbor_label. split.
  - destruct (decide (start + -1 < frame_count a)) as [Hlt|Hge].
    + destruct (find_loop_down_ends (S (Z.to_nat (frame_count a))) a (start + -1))
        as [r ->]; [lia|by eexists].
    + simpl. replace (start + -1 <? frame_count a) with false
        by (symmetry; apply Z.ltb_ge; lia).
      rewrite andb_false_r. by eexists.
  - destruct (decide (0 <= start + 1)) as [Hle|Hneg].
    + destruct (find_loop_up_ends (S (Z.to_nat (frame_count a))) a (start + 1))
        as [r ->]; [lia|by eexists].
    + simpl. replace (0 <=? start + 1) with false
        by (symmetry; apply Z.leb_gt; lia).
      by eexists.
Qed.

(** The loop of the fill over any list of indices: an unlabeled index
    gets [fill], a labeled one keeps its label, the others are not
    touched. *)
Lemma fill_fold_lookup (fill : Label) (ks : list Z) m (count i : Z) :
  (fold_left (fill_step fill) ks (m, count)).1 !! i
  = if decide (i ∈ ks) then Some (default fill (m !! i)) else m !! i.
Proof.
  revert m count. induction ks as [|k ks IH]; intros m count; cbn [fold_left].
  - rewrite decide_False; [done|]. apply not_elem_of_nil.
  - unfold fill_step at 2. cbn [fst snd].
    destruct (m !! k) as [l|] eqn:Hk; rewrite IH.
    + destruct (decide (i ∈ ks)) as [Hin|Hin].
      * rewrite decide_True; [done|]. by right.
      * destruct (decide (i = k)) as [->|Hik].
        -- rewrite decide_True by (by left). by rewrite Hk.
        -- rewrite decide_False; [done|]. by intros [?|?]%elem_of_cons.
    + destruct (decide (i = k)) as [->|Hik].
      * rewrite lookup_insert_eq, Hk. simpl.
        rewrite (decide_True (P := k ∈ k :: ks)) by (by left).
        by destruct (decide (k ∈ ks)).
      * rewrite lookup_insert_ne by done.
        destruct (decide (i ∈ ks)) as [Hin|Hin].
        -- rewrite decide_True; [done|]. by right.
        -- rewrite decide_False; [done|]. by intros [?|?]%elem_of_cons.
Qed.

(** The counter counts the indices that had no label. *)
Lemma fill_fold_count (fill : Label) (ks : list Z) m (count : Z) :
  NoDup ks -> (forall k, k ∈ ks -> m !! k = None) ->
  (fold_left (fill_step fill) ks (m, count)).2 = count + Z.of_nat (length ks).
Proof.
  revert m count. induction ks as [|k ks IH]; intros m count Hnd Hnone;
    cbn [fold_left length].
  - simpl. lia.
  - apply NoDup_cons in Hnd as [Hk Hnd].
    unfold fill_step at 2. cbn [fst snd]. rewrite Hnone by (by left).
    rewrite IH; [lia|done|].
    intros k' Hk'. rewrite lookup_insert_ne by (by intros ->).
    apply Hnone. by right.
Qed.

(** The ledger grows by what the counter counts. *)
Lemma fill_fold_size (fill : Label) (ks : list Z) m (count : Z) :
  Z.of_nat (size (fold_left (fill_step fill) ks (m, count)).1) - Z.of_nat (size m)
  = (fold_left (fill_step fill) ks (m, count)).2 - count.
Proof.
  revert m count. induction ks as [|k ks IH]; intros m count; cbn [fold_left].
  - simpl. lia.
  - unfold fill_step at 2 4. cbn [fst snd].
    destruct (m !! k) as [l|] eqn:Hk; [apply IH|].
    pose proof (IH (<[k := fill]> m) (count + 1)) as Hrest.
    rewrite (map_size_insert_None _ _ _ Hk) in Hrest. lia.
Qed.

Lemma elem_of_seqZ_between (p n i : Z) :
  i ∈ seqZ (p + 1) (n - (p + 1)) <-> p < i < n.
Proof.
  rewrite list_elem_of_lookup. split.
  - intros [j Hj]. apply lookup_seqZ in Hj. lia.
  - intros Hi. exists (Z.to_nat (i - (p + 1))). apply lookup_seqZ. lia.
Qed.

Lemma get_frame_ledger a (idx : Z) :
  annotations (get_frame a idx).2 = annotations a
  /\ path (get_frame a idx).2 = path a
  /\ frame_count (get_frame a idx).2 = frame_count a.
Proof.
  unfold get_frame. destruct (cap a) as [c|] eqn:Hc; [|done].
  destruct (_ || _); [done|].
  destruct (idx <? _).
  - by destruct (frame_cache a !! Z.to_nat idx).
  - unfold _read_from_cap. rewrite Hc. unfold cv2.read.
    destruct (cv2.decode _); [done|].
    destruct (0 <? idx); [|done].
    by destruct (cv2.decode _).
Qed.

Lemma goto_frame_ledger a (idx : Z) :
  annotations (goto_frame a idx) = annotations a
  /\ path (goto_frame a idx) = path a
  /\ frame_count (goto_frame a idx) = frame_count a.
Proof.
  unfold goto_frame. pose proof (get_frame_ledger a idx) as H.
  destruct (get_frame a idx) as [[frame|] a']; simpl in *; done.
Qed.

End fill.

(** The handler always comes back: neither scan runs out of fuel. *)
Lemma fill_between_labels_returns (d : Disk) (annotator : VideoAnnotatorCore) :
  exists r, GazeEncoderApp.fill_between_labels d annotator = Ret r.
Proof.
  unfold GazeEncoderApp.fill_between_labels.
  destruct (cap annotator); [|by eexists].
  destruct (get_label _ _); [by eexists|].
  destruct (find_neighbor_returns annotator (current_frame annotator))
    as [[prev ->] [next ->]]. simpl.
  destruct prev as [[prev_idx prev_label]|]; [|by eexists].
  destruct next as [[next_idx next_label]|]; [|by eexists].
  destruct (negb _); [by eexists|].
  destruct (fold_left _ _ _) as [m filled].
  destruct (filled =? 0); by eexists.
Qed.

(** The handler between two neighbours: what it reports, the ledger and
    the disk it leaves. *)
Lemma fill_between_neighbours_spec (d : Disk) (annotator : VideoAnnotatorCore)
    (c : cv2.VideoCapture) (prev next : Z) (prev_label next_label : Label) :
  cap annotator = Some c ->
  0 <= prev < current_frame annotator ->
  current_frame annotator < next < frame_count annotator ->
  annotations annotator !! prev = Some prev_label ->
  annotations annotator !! next = Some next_label ->
  (forall i, prev < i < next -> annotations annotator !! i = None) ->
  if decide (mode prev_label = mode next_label /\ group prev_label = group next_label)
  then
    exists annotator' d',
      GazeEncoderApp.fill_between_labels d annotator
      = Ret (GazeEncoderApp.Filled (next - prev - 1), annotator', d')
      /\ (forall i, prev < i < next -> annotations annotator' !! i = Some prev_label)
      /\ (forall i, ~ prev < i < next ->
            annotations annotator' !! i = annotations annotator !! i)
      /\ Z.of_nat (size (annotations annotator'))
         = Z.of_nat (size (annotations annotator)) + (next - prev - 1)
      /\ d' = save_csv d annotator'
  else
    GazeEncoderApp.fill_between_labels d annotator
    = Ret (GazeEncoderApp.Warning "Warning" GazeEncoderApp.must_match, annotator, d).
Proof.
  intros Hcap Hprev Hnext Hlp Hln Hgap.
  set (cur := current_frame annotator) in *.
  assert (GazeEncoderApp._find_neighbor_label annotator cur (-1)
          = Ret (Some (prev, prev_label))) as Hdown.
  { unfold GazeEncoderApp._find_neighbor_label.
    rewrite (find_loop_down _ annotator (cur + -1) prev prev_label);
      [done|lia|lia|done| |lia].
    intros i Hi. apply Hgap. lia. }
  assert (GazeEncoderApp._find_neighbor_label annotator cur 1
          = Ret (Some (next, next_label))) as Hup.
  { unfold GazeEncoderApp._find_neighbor_label.
    rewrite (find_loop_up _ annotator (cur + 1) next next_label);
      [done|lia|lia|done| |lia].
    intros i Hi. apply Hgap. lia. }
  unfold GazeEncoderApp.fill_between_labels. rewrite Hcap.
  fold cur. unfold get_label. simpl. rewrite (Hgap cur) by lia.
  rewrite Hdown, Hup. simpl.
  destruct (decide (mode prev_label = mode next_label
                    /\ group prev_label = group next_label)) as [[Hm Hg]|Hdiff].
  - rewrite !bool_decide_eq_true_2 by done. simpl.
    set (fill := {| mode := mode prev_label; group := group prev_label |}).
    assert (fill = prev_label) as Hfill by (by destruct prev_label).
    set (ks := seqZ (prev + 1) (next - (prev + 1))).
    pose proof (fill_fold_lookup fill ks (annotations annotator) 0) as Hlookup.
    pose proof (fill_fold_count fill ks (annotations annotator) 0
                  (NoDup_seqZ _ _)) as Hcount.
    pose proof (fill_fold_size fill ks (annotations annotator) 0) as Hsize.
    destruct (fold_left _ ks _) as [m filled] eqn:Hfold.
    simpl in Hlookup, Hcount, Hsize.
    rewrite Hcount in Hsize |- *
      by (intros k Hk%elem_of_seqZ_between; by apply Hgap).
    unfold ks in Hsize |- *. rewrite length_seqZ in Hsize |- *.
    replace (0 + Z.of_nat (Z.to_nat (next - (prev + 1)))) with (next - prev - 1)
      in Hsize |- * by lia.
    replace (next - prev - 1 =? 0) with false by (symmetry; apply Z.eqb_neq; lia).
    destruct (goto_frame_ledger (with_annotations annotator m) cur)
      as (Hann & Hpath & _).
    eexists _, _. split_and!; [reflexivity| | | |].
    + intros i Hi. rewrite Hann. simpl. rewrite Hlookup.
      rewrite decide_True by (by apply elem_of_seqZ_between).
      by rewrite (Hgap i Hi), <- Hfill.
    + intros i Hi. rewrite Hann. simpl. rewrite Hlookup.
      rewrite decide_False; [done|]. intros Hin. by apply elem_of_seqZ_between in Hin.
    + rewrite Hann. simpl. lia.
    + unfold save_csv, derive_csv_path. by rewrite Hann, Hpath.
  - assert (bool_decide (mode prev_label = mode next_label)
            && bool_decide (group prev_label = group next_label) = false) as ->; [|done].
    apply andb_false_iff.
    destruct (decide (mode prev_label = mode next_label)) as [Hm|Hm].
    + right. apply bool_decide_eq_false_2. intros Hg. by apply Hdiff.
    + left. by apply bool_decide_eq_false_2.
Qed.

Lemma gap_unlabeled (at15 : Label) (i : Z) :
  5 < i < 15 -> annotations (gap at15) !! i = None.
Proof.
  intros Hi. unfold gap. cbn [annotations].
  rewrite lookup_insert_ne by lia. apply lookup_singleton_ne. lia.
Qed.

(** C3, as stated, fails: the claim has the handler return the count of
    the frames it filled, 9 on the example with labels on 5 and 15 and the
    cursor on 10.  The handler fills the nine frames, its counter reaches 9,
    and the call returns [None]: the count is neither returned nor shown. *)
Lemma fill_returns_none_counterexample :
  exists r annotator' d',
    GazeEncoderApp.fill_between_labels empty_disk (gap A_x) = Ret (r, annotator', d')
    /\ r = GazeEncoderApp.Filled 9
    /\ GazeEncoderApp.returned r = None
    /\ GazeEncoderApp.returned r <> Some 9.
Proof.
  pose proof (fill_between_neighbours_spec empty_disk (gap A_x) twenty_frames 5 15
                A_x A_x eq_refl ltac:(simpl; lia) ltac:(simpl; lia) eq_refl eq_refl
                (gap_unlabeled A_x)) as H.
  rewrite decide_True in H by done.
  destruct H as (annotator' & d' & Hrun & _).
  exists (GazeEncoderApp.Filled 9), annotator', d'.
  split_and!; [exact Hrun|reflexivity|reflexivity|discriminate].
Qed.

(** C3, amended: the cursor is on an unlabeled frame, [prev] and [next]
    are the nearest labeled frames below and above it inside the video.
    When they carry the same mode and the same group, every frame strictly
    between them gets that pair, every other frame of the ledger, [prev]
    and [next] among them, keeps what it had, the ledger grows by the
    [next - prev - 1] frames between them, which is the value the local
    counter [filled] reaches, and the sidecar is rewritten from the new
    ledger.  When they differ in mode or in group, the warning is shown
    and neither the ledger nor the disk changes.  On both paths the call
    returns [None]. *)
Theorem fill_between_neighbours_amended (d : Disk) (annotator : VideoAnnotatorCore)
    (c : cv2.VideoCapture) (prev next : Z) (prev_label next_label : Label) :
  cap annotator = Some c ->
  0 <= prev < current_frame annotator ->
  current_frame annotator < next < frame_count annotator ->
  annotations annotator !! prev = Some prev_label ->
  annotations annotator !! next = Some next_label ->
  (forall i, prev < i < next -> annotations annotator !! i = None) ->
  exists r annotator' d',
    GazeEncoderApp.fill_between_labels d annotator = Ret (r, annotator', d')
    /\ GazeEncoderApp.returned r = None
    /\ if decide (mode prev_label = mode next_label /\ group prev_label = group next_label)
       then
         r = GazeEncoderApp.Filled (next - prev - 1)
         /\ (forall i, prev < i < next -> annotations annotator' !! i = Some prev_label)
         /\ (forall i, ~ prev < i < next ->
               annotations annotator' !! i = annotations annotator !! i)
         /\ Z.of_nat (size (annotations annotator'))
            = Z.of_nat (size (annotations annotator)) + (next - prev - 1)
         /\ d' = save_csv d annotator'
       else
         r = GazeEncoderApp.Warning "Warning" GazeEncoderApp.must_match
         /\ annotator' = annotator /\ d' = d.
Proof.
  intros Hcap Hprev Hnext Hlp Hln Hgap.
  pose proof (fill_between_neighbours_spec d annotator c prev next prev_label next_label
                Hcap Hprev Hnext Hlp Hln Hgap) as H.
  destruct (decide (mode prev_label = mode next_label
                    /\ group prev_label = group next_label)) as [Hsame|Hdiff].
  - destruct H as (annotator' & d' & Hrun & Hbetween & Hother & Hsize & Hdisk).
    exists (GazeEncoderApp.Filled (next - prev - 1)), annotator', d'.
    split_and!; done.
  - exists (GazeEncoderApp.Warning "Warning" GazeEncoderApp.must_match), annotator, d.
    split_and!; done.
Qed.

Lemma fill_between_neighbours_amended_witness :
  (exists annotator' d',
     GazeEncoderApp.fill_between_labels empty_disk (gap A_x)
     = Ret (GazeEncoderApp.Filled 9, annotator', d')
     /\ (forall i, 5 < i < 15 -> annotations annotator' !! i = Some A_x)
     /\ annotations annotator' !! 5 = Some A_x
     /\ annotations annotator' !! 15 = Some A_x
     /\ size (annotations annotator') = 11%nat)
  /\ GazeEncoderApp.fill_between_labels empty_disk (gap B_x)
     = Ret (GazeEncoderApp.Warning "Warning" GazeEncoderApp.must_match,
            gap B_x, empty_disk).
Proof.
  split.
  - pose proof (fill_between_neighbours_amended empty_disk (gap A_x) twenty_frames 5 15
                  A_x A_x eq_refl ltac:(simpl; lia) ltac:(simpl; lia) eq_refl eq_refl
                  (gap_unlabeled A_x)) as H.
    destruct H as (r & annotator' & d' & Hrun & _ & H).
    rewrite decide_True in H by done.
    destruct H as (-> & Hbetween & Hother & Hsize & _).
    exists annotator', d'. split_and!; [exact Hrun|exact Hbetween|..].
    + rewrite Hother by lia. reflexivity.
    + rewrite Hother by lia. reflexivity.
    + change (size (annotations (gap A_x))) with 2%nat in Hsize. lia.
  - pose proof (fill_between_neighbours_amended empty_disk (gap B_x) twenty_frames 5 15
                  A_x B_x eq_refl ltac:(simpl; lia) ltac:(simpl; lia) eq_refl eq_refl
                  (gap_unlabeled B_x)) as H.
    destruct H as (r & annotator' & d' & Hrun & _ & H).
    rewrite decide_False in H by (intros [? _]; discriminate).
    destruct H as (-> & -> & ->). exact Hrun.
Defined.

(** * Further properties of the frame store *)

Section opening.

Implicit Types (c : cv2.VideoCapture) (d : Disk) (self : VideoAnnotatorCore).

Lemma capture_at_eq c :
  cv2.isOpened c = true -> c = capture_at (cv2.video c) (cv2.CAP_PROP_POS_FRAMES c).
Proof. destruct c as [v pos o]. simpl. by intros ->. Qed.

Lemma set_pos_capture_at c (i : Z) :
  cv2.isOpened c = true -> cv2.set_pos c i = capture_at (cv2.video c) i.
Proof. intros Ho. unfold cv2.set_pos. by rewrite Ho. Qed.

Lemma grab_count_full c (reported : Z) :
  cv2.isOpened c = true ->
  grab_count c reported
  = Ret (Z.max (decodable c) reported, capture_at (cv2.video c) 0).
Proof.
  intros Ho. unfold grab_count.
  destruct (set_pos_opened c 0 Ho) as (Ho0 & Hv0 & Hp0).
  assert (decodable (cv2.set_pos c 0) = decodable c) as Hn
    by (unfold decodable; by rewrite Hv0).
  destruct (grab_loop_counts (grab_fuel (cv2.set_pos c 0)) (cv2.set_pos c 0) 0 Ho0)
    as (c' & -> & Ho' & Hv').
  - rewrite Hp0, Hn. unfold decodable. lia.
  - rewrite Hp0, Hn. unfold grab_fuel, decodable. rewrite Hv0. lia.
  - simpl. rewrite Hp0, Hn, (set_pos_capture_at c' 0 Ho'), Hv', Hv0.
    do 3 f_equal. lia.
Qed.

(** The probe on an open capture: the count, and the capture it leaves. *)
Lemma probe_frame_count_full c :
  cv2.isOpened c = true ->
  _probe_frame_count c
  = Ret (probe_result (decodable c) (cv2.CAP_PROP_FRAME_COUNT (cv2.video c))
           (cv2.landing (cv2.video c) (cv2.CAP_PROP_FRAME_COUNT (cv2.video c) - 1)),
         capture_at (cv2.video c) 0).
Proof.
  intros Ho. set (R := cv2.CAP_PROP_FRAME_COUNT (cv2.video c)).
  unfold _probe_frame_count, probe_result. fold R.
  destruct (Z.ltb_spec 0 R) as [HR|HR]; [|by apply grab_count_full].
  destruct (set_pos_opened c (Z.max 0 (R - 1)) Ho) as (Ho1 & Hv1 & Hp1).
  set (c1 := cv2.set_pos c (Z.max 0 (R - 1))) in *.
  assert (decodable c1 = decodable c) as Hn1 by (unfold decodable; by rewrite Hv1).
  destruct (advance_opened c1 Ho1) as [Ho2 Hv2].
  unfold cv2.read. destruct (Z.leb_spec R (decodable c)) as [Hle|Hgt].
  - destruct (decode_in_range c1 Ho1) as [f Hf]; [lia|]. rewrite Hf.
    by rewrite (set_pos_capture_at _ 0 Ho2), Hv2, Hv1.
  - pose proof (decode_out_of_range c1 ltac:(lia)) as Hf. rewrite Hf.
    pose proof (advance_pos_failure c1 Ho1 Hf) as Hp2.
    rewrite Hv1, Hp1 in Hp2. replace (Z.max 0 (R - 1)) with (R - 1) in Hp2 by lia.
    rewrite Hp2, (set_pos_capture_at _ 0 Ho2), Hv2, Hv1.
    destruct (Z.ltb_spec 0 (cv2.landing (cv2.video c) (R - 1))); [done|].
    by rewrite (grab_count_full (capture_at (cv2.video c) 0) R eq_refl).
Qed.

Lemma probe_result_nonneg (N R p : Z) : 0 <= N -> 0 <= probe_result N R p.
Proof.
  intros HN. unfold probe_result.
  destruct (Z.ltb_spec 0 R), (Z.leb_spec R N), (Z.ltb_spec 0 p); lia.
Qed.

(** The priming loop from a cursor inside or past the stream: the next [n]
    frames, as many as there are. *)
Lemma prime_loop_spec (n : nat) (v : cv2.Video) (pos : Z) (cache : list cv2.ndarray) :
  0 <= pos ->
  (prime_loop n (capture_at v pos) cache).2
  = (cache ++ take n (drop (Z.to_nat pos) (cv2.frames v)))%list.
Proof.
  revert pos cache. induction n as [|n IH]; intros pos cache Hpos; simpl.
  - by rewrite take_0, app_nil_r.
  - unfold cv2.decode. simpl.
    replace (0 <=? pos) with true by (symmetry; apply Z.leb_le; lia).
    destruct (cv2.frames v !! Z.to_nat pos) as [frame|] eqn:Hframe; simpl.
    + change (cv2.advance (capture_at v pos)) with
        (capture_at v (match cv2.decode (capture_at v pos) with
                       | Some _ => pos + 1 | None => cv2.landing v pos end)).
      unfold cv2.decode. simpl.
      replace (0 <=? pos) with true by (symmetry; apply Z.leb_le; lia).
      rewrite Hframe. rewrite IH by lia.
      rewrite (drop_S _ _ _ Hframe). simpl.
      replace (Z.to_nat (pos + 1)) with (S (Z.to_nat pos)) by lia.
      by rewrite <- app_assoc.
    + apply lookup_ge_None in Hframe. by rewrite drop_ge, take_nil, app_nil_r.
Qed.

End opening.

Section opened_state.

Implicit Types (c : cv2.VideoCapture) (d : Disk) (self : VideoAnnotatorCore).

Lemma prime_loop_capture (n : nat) c (cache : list cv2.ndarray) :
  cv2.isOpened c = true ->
  cv2.isOpened (prime_loop n c cache).1 = true
  /\ cv2.video (prime_loop n c cache).1 = cv2.video c.
Proof.
  revert c cache. induction n as [|n IH]; intros c cache Ho; simpl; [done|].
  destruct (advance_opened c Ho) as [Ho' Hv'].
  destruct (cv2.decode c); simpl; [|done].
  destruct (IH (cv2.advance c) (cache ++ [n0])%list Ho') as [? ?].
  split; [done|congruence].
Qed.

Lemma derive_csv_path_stored self (filepath : string) :
  path self = Some filepath -> derive_csv_path self = sidecar_path filepath.
Proof. intros Hp. unfold sidecar_path, derive_csv_path. simpl. by rewrite Hp. Qed.

(** [load_video], in full. *)
Lemma load_video_eq d self (filepath : string) :
  load_video d self filepath
  = match videos d !! filepath with
    | None => Ret (false, released self)
    | Some v =>
        let* m := sidecar_ledger d filepath in
        Ret (true, opened_state v filepath m)
    end.
Proof.
  unfold load_video, cv2.open, released, sidecar_ledger.
  destruct (videos d !! filepath) as [v|] eqn:Hv; simpl; [|done].
  change {| cv2.video := v; cv2.CAP_PROP_POS_FRAMES := 0; cv2.isOpened := true |}
    with (capture_at v 0).
  rewrite (probe_frame_count_full (capture_at v 0) eq_refl). simpl.
  change (decodable (capture_at v 0)) with (Z.of_nat (length (cv2.frames v))).
  fold (stored_count v). fold (stored_fps (cv2.CAP_PROP_FPS v)).
  unfold load_csv.
  match goal with |- context [derive_csv_path ?s] =>
    rewrite (derive_csv_path_stored s filepath eq_refl) end.
  simpl. destruct (files d !! sidecar_path filepath) as [f|]; simpl.
  - destruct (load_rows ∅ (csv.DictReader f)) as [m| |]; simpl; [|done..].
    pose proof (prime_loop_spec (Z.to_nat (Z.min 60 (stored_count v))) v 0 [] ltac:(lia))
      as Hcache.
    pose proof (prime_loop_capture (Z.to_nat (Z.min 60 (stored_count v)))
                  (capture_at v 0) [] eq_refl) as [Ho2 Hv2].
    change (cv2.set_pos (capture_at v 0) 0) with (capture_at v 0).
    destruct (prime_loop _ (capture_at v 0) []) as [c2 cache]. simpl in *.
    rewrite drop_0 in Hcache. fold (primed v) in Hcache. subst cache.
    unfold opened_state, with_frame_cache, with_cap. simpl. do 3 f_equal.
    rewrite !(set_pos_capture_at c2 _ Ho2), Hv2. by destruct (_ <? _).
  - pose proof (prime_loop_spec (Z.to_nat (Z.min 60 (stored_count v))) v 0 [] ltac:(lia))
      as Hcache.
    pose proof (prime_loop_capture (Z.to_nat (Z.min 60 (stored_count v)))
                  (capture_at v 0) [] eq_refl) as [Ho2 Hv2].
    change (cv2.set_pos (capture_at v 0) 0) with (capture_at v 0).
    destruct (prime_loop _ (capture_at v 0) []) as [c2 cache]. simpl in *.
    rewrite drop_0 in Hcache. fold (primed v) in Hcache. subst cache.
    unfold opened_state, with_frame_cache, with_cap. simpl. do 3 f_equal.
    rewrite !(set_pos_capture_at c2 _ Ho2), Hv2. by destruct (_ <? _).
Qed.

End opened_state.

Section seeking.

Implicit Types (c : cv2.VideoCapture) (d : Disk) (self : VideoAnnotatorCore).

Lemma decode_capture_at (v : cv2.Video) (pos : Z) :
  0 <= pos -> cv2.decode (capture_at v pos) = cv2.frames v !! Z.to_nat pos.
Proof.
  intros Hpos. unfold cv2.decode. simpl.
  by replace (0 <=? pos) with true by (symmetry; apply Z.leb_le; lia).
Qed.

Lemma read_capture_at_hit (v : cv2.Video) (pos : Z) (frame : cv2.ndarray) :
  0 <= pos -> cv2.frames v !! Z.to_nat pos = Some frame ->
  cv2.read (capture_at v pos) = (Some frame, capture_at v (pos + 1)).
Proof.
  intros Hpos Hframe. unfold cv2.read, cv2.advance.
  by rewrite (decode_capture_at v pos Hpos), Hframe.
Qed.

Lemma read_capture_at_miss (v : cv2.Video) (pos : Z) :
  0 <= pos -> cv2.frames v !! Z.to_nat pos = None ->
  cv2.read (capture_at v pos) = (None, capture_at v (cv2.landing v pos)).
Proof.
  intros Hpos Hframe. unfold cv2.read, cv2.advance.
  by rewrite (decode_capture_at v pos Hpos), Hframe.
Qed.


(** [_read_from_cap] on an open capture, when the frame decodes. *)
Lemma read_from_cap_hit self c (i : Z) (frame : cv2.ndarray) :
  cap self = Some c -> cv2.isOpened c = true -> 0 <= i ->
  cv2.frames (cv2.video c) !! Z.to_nat i = Some frame ->
  _read_from_cap self i
  = (Some frame, with_cap self (Some (capture_at (cv2.video c) (i + 1)))).
Proof.
  intros Hcap Ho Hi Hframe. unfold _read_from_cap. rewrite Hcap.
  rewrite (set_pos_capture_at c i Ho).
  by rewrite (read_capture_at_hit _ i frame Hi Hframe).
Qed.


(** What [get_frame] does to the state, whatever the index: it changes the
    capture and the cursor only, and the cursor only when it returns a
    frame, to an index inside the video. *)
Lemma get_frame_cases self (i : Z) :
  let '(frame, self') := get_frame self i in
  path self' = path self /\ frame_count self' = frame_count self
  /\ fps self' = fps self /\ annotations self' = annotations self
  /\ frame_cache self' = frame_cache self
  /\ match frame with
     | None => current_frame self' = current_frame self
     | Some _ => current_frame self' = i /\ 0 <= i < frame_count self
     end.
Proof.
  unfold get_frame. destruct (cap self) as [c|] eqn:Hcap; [|done].
  destruct (Z.ltb_spec i 0); [done|].
  destruct (Z.leb_spec (frame_count self) i); [done|]. simpl.
  destruct (i <? _).
  - destruct (frame_cache self !! Z.to_nat i); simpl; repeat split; first [done | lia].
  - unfold _read_from_cap, cv2.read. rewrite Hcap.
    repeat case_match; simplify_eq; simpl; repeat split; first [done | lia].
Qed.

End seeking.

(** X1: a successful [load_video] builds its state from the disk and the
    path alone: nothing of the state before it survives, whatever that
    state was.  The path is the one given, the cursor is 0, the frame count
    is not negative and the rate is positive. *)
Theorem load_video_replaces_state (d : Disk) (self other s : VideoAnnotatorCore)
    (filepath : string) :
  load_video d self filepath = Ret (true, s) ->
  load_video d other filepath = Ret (true, s)
  /\ path s = Some filepath /\ current_frame s = 0
  /\ 0 <= frame_count s /\ (0 < fps s)%Q.
Proof.
  rewrite !load_video_eq.
  destruct (videos d !! filepath) as [v|]; [|done].
  destruct (sidecar_ledger d filepath) as [m| |]; simpl; [|done..].
  intros [= <-]. split_and!; try done.
  - apply probe_result_nonneg. lia.
  - simpl. unfold stored_fps. by destruct (Qlt_le_dec 0 (cv2.CAP_PROP_FPS v)).
Qed.

Lemma load_video_long :
  load_video long_video init "clips/long.mp4" = Ret (true, opened_long).
Proof. rewrite load_video_eq. vm_compute. reflexivity. Qed.

Lemma load_video_replaces_state_witness :
  load_video long_video labelled "clips/long.mp4" = Ret (true, opened_long)
  /\ frame_count opened_long = 100 /\ (fps opened_long == 30)%Q.
Proof.
  destruct (load_video_replaces_state long_video init labelled opened_long
              "clips/long.mp4" load_video_long) as (Hother & _).
  split; [exact Hother|]. split; vm_compute; reflexivity.
Defined.

(** X2: labels survive closing and reopening.  After [save_csv], a
    [load_video] of the same path on the disk that was written succeeds
    when the backend opens the video, whatever the state it starts from,
    and its ledger is the one that was saved (every mode non-empty, every
    group a string). *)
Theorem reopen_restores_ledger (d : Disk) (self other : VideoAnnotatorCore)
    (filepath : string) (v : cv2.Video) :
  path self = Some filepath -> filepath <> "" ->
  map_Forall (fun _ l => mode l <> "" /\ is_Some (group l)) (annotations self) ->
  videos d !! filepath = Some v ->
  exists s,
    load_video (save_csv d self) other filepath = Ret (true, s)
    /\ annotations s = annotations self.
Proof.
  intros Hp Hne Hm Hv. rewrite load_video_eq.
  assert (videos (save_csv d self) = videos d) as ->.
  { unfold save_csv. rewrite Hp. by destruct filepath. }
  rewrite Hv. unfold sidecar_ledger.
  rewrite <- (derive_csv_path_stored self filepath Hp).
  rewrite (save_csv_file d self filepath Hp Hne).
  change (load_rows _ _) with (reload (annotations self)).
  rewrite reload_spec, (reloaded_id _ Hm). simpl. by eexists.
Qed.

Lemma reopen_restores_ledger_witness :
  exists s,
    load_video (save_csv with_run1 labelled) init "clips/run1.mp4" = Ret (true, s)
    /\ annotations s = annotations labelled.
Proof.
  apply (reopen_restores_ledger with_run1 labelled init "clips/run1.mp4" three_frames).
  - reflexivity.
  - discriminate.
  - apply (bool_decide_unpack _). vm_compute. exact I.
  - vm_compute. reflexivity.
Defined.

(** X3: the cache is a copy of the head of the stream, on a backend that
    rewinds.  For a video whose container reports more than one frame
    (where the backend honours the seeks back to frame 0), after a
    successful [load_video] the cache holds the first
    [min(60, frame_count)] frames of the video, as many as decode;
    [get_frame] on a cached index returns the very frame that a direct
    [_read_from_cap] of that index returns. *)
Theorem cache_is_stream_prefix (d : Disk) (self s : VideoAnnotatorCore)
    (filepath : string) (v : cv2.Video) :
  load_video d self filepath = Ret (true, s) ->
  videos d !! filepath = Some v ->
  1 < cv2.CAP_PROP_FRAME_COUNT v ->
  frame_cache s = take (Z.to_nat (Z.min 60 (frame_count s))) (cv2.frames v)
  /\ forall (i : Z) (frame : cv2.ndarray),
       0 <= i -> frame_cache s !! Z.to_nat i = Some frame ->
       (get_frame s i).1 = Some frame /\ (_read_from_cap s i).1 = Some frame.
Proof.
  rewrite load_video_eq. intros Hrun Hv _. rewrite Hv in Hrun.
  destruct (sidecar_ledger d filepath) as [m| |]; simpl in Hrun; [|done..].
  injection Hrun as <-. split; [done|].
  intros i frame Hi Hframe. simpl in Hframe.
  pose proof (lookup_lt_Some _ _ _ Hframe) as Hlen.
  assert (cv2.frames v !! Z.to_nat i = Some frame) as Hstream.
  { unfold primed in Hframe. by apply lookup_take_Some in Hframe as [? _]. }
  split.
  - unfold get_frame. simpl.
    assert (Z.of_nat (length (primed v)) <= stored_count v) as Hcount.
    { pose proof (probe_result_nonneg (Z.of_nat (length (cv2.frames v)))
                    (cv2.CAP_PROP_FRAME_COUNT v)
                    (cv2.landing v (cv2.CAP_PROP_FRAME_COUNT v - 1)) ltac:(lia)).
      unfold primed. rewrite length_take. unfold stored_count in *. lia. }
    replace (i <? 0) with false by (symmetry; apply Z.ltb_ge; lia).
    replace (stored_count v <=? i) with false by (symmetry; apply Z.leb_gt; lia).
    replace (i <? Z.of_nat (length (primed v))) with true
      by (symmetry; apply Z.ltb_lt; lia).
    simpl. by rewrite Hframe.
  - erewrite read_from_cap_hit; [done|done|done|done|]. exact Hstream.
Qed.

Lemma cache_is_stream_prefix_witness :
  length (frame_cache opened_long) = 60%nat
  /\ (get_frame opened_long 59).1 = Some [59]
  /\ (_read_from_cap opened_long 59).1 = Some [59].
Proof.
  destruct (cache_is_stream_prefix long_video init opened_long "clips/long.mp4"
              hundred_frames load_video_long eq_refl eq_refl) as [Hcache Hsame].
  split; [by rewrite Hcache|].
  apply (Hsame 59 [59]); [lia|]. vm_compute. reflexivity.
Defined.






(** X6: where playback starts after opening, on a backend that seeks.
    For a video whose container reports more than one frame (where the
    backend honours the seeks), a successful [load_video] leaves the
    decoder on the first frame the cache does not hold, or on frame 0 when
    the cache holds the whole video, while [current_frame] is 0: the first
    [read_next_frame] returns the frame of the stream at that decoder
    position, and sets [current_frame] to 1. *)
Theorem play_after_open (d : Disk) (self s : VideoAnnotatorCore)
    (filepath : string) (v : cv2.Video) :
  load_video d self filepath = Ret (true, s) ->
  videos d !! filepath = Some v ->
  1 < cv2.CAP_PROP_FRAME_COUNT v ->
  let cached := Z.of_nat (length (frame_cache s)) in
  let start := if cached <? frame_count s then cached else 0 in
  (read_next_frame s).1 = cv2.frames v !! Z.to_nat start
  /\ (is_Some (cv2.frames v !! Z.to_nat start) ->
      current_frame (read_next_frame s).2 = 1).
Proof.
  rewrite load_video_eq. intros Hrun Hv _. rewrite Hv in Hrun.
  destruct (sidecar_ledger d filepath) as [m| |]; simpl in Hrun; [|done..].
  injection Hrun as <-. cbn [frame_cache frame_count opened_state].
  set (start := if _ <? _ then _ else _).
  assert (0 <= start) as Hstart by (unfold start; destruct (_ <? _); lia).
  unfold read_next_frame. cbn [cap opened_state]. fold start.
  destruct (cv2.frames v !! Z.to_nat start) as [frame|] eqn:Hframe.
  - by rewrite (read_capture_at_hit v start frame Hstart Hframe).
  - rewrite (read_capture_at_miss v start Hstart Hframe). split; [done|].
    by intros [? ?].
Qed.

Lemma play_after_open_witness :
  (read_next_frame opened_long).1 = Some [60]
  /\ current_frame (read_next_frame opened_long).2 = 1.
Proof.
  destruct (play_after_open long_video init opened_long "clips/long.mp4"
              hundred_frames load_video_long eq_refl eq_refl) as [Hframe Hcursor].
  split; [exact Hframe|]. apply Hcursor. by eexists.
Defined.

Lemma get_frame_same_video (a : VideoAnnotatorCore) (i : Z) :
  same_video_in_range a (get_frame a i).2.
Proof.
  pose proof (get_frame_cases a i) as H. unfold same_video_in_range.
  destruct (get_frame a i) as [[frame|] a']; simpl;
    destruct H as (? & ? & ? & ? & ? & ?); split_and!; try done; lia.
Qed.

Lemma goto_frame_same_video (a : VideoAnnotatorCore) (i : Z) :
  same_video_in_range a (GazeEncoderApp.goto_frame a i).
Proof.
  pose proof (get_frame_cases a i) as H.
  unfold same_video_in_range, GazeEncoderApp.goto_frame.
  destruct (get_frame a i) as [[frame|] a']; simpl;
    destruct H as (? & ? & ? & ? & ? & ?); split_and!; try done; lia.
Qed.

(** X7: [get_frame], [goto_frame], [prev_frame] and [next_frame] never
    touch the path, the frame count, the ledger or the cache, and never
    move a cursor that is inside the video out of it, whatever the index
    asked for and whatever the decoder does. *)
Theorem navigation_stays_in_video (a : VideoAnnotatorCore) (i : Z) :
  same_video_in_range a (get_frame a i).2
  /\ same_video_in_range a (GazeEncoderApp.goto_frame a i)
  /\ same_video_in_range a (GazeEncoderApp.prev_frame a)
  /\ same_video_in_range a (GazeEncoderApp.next_frame a).
Proof.
  split_and!; [apply get_frame_same_video|apply goto_frame_same_video..].
Qed.




(** * Further properties of the sidecar *)

(** X9: [load_csv] merges the file into the ledger, the last row winning.
    For a file whose frames are all read the load returns; a frame then
    holds the label of the last row of the file that stores one for it,
    and a frame for which no row stores a label keeps what the ledger held
    before the load. *)
Theorem load_last_row_wins (d : Disk) (self : VideoAnnotatorCore) (csv_path : string)
    (fieldnames : list string) (rows : list (list string)) :
  files d !! csv_path = Some (fieldnames :: rows) ->
  Forall frame_readable (csv.DictReader (fieldnames :: rows)) ->
  exists self',
    load_csv d self csv_path = Ret self'
    /\ (forall before row after k l,
          rows = (before ++ row :: after)%list -> row <> [] ->
          stores (csv.row_dict fieldnames row) k l ->
          Forall (passes k) (csv.DictReader (fieldnames :: after)) ->
          annotations self' !! k = Some l)
    /\ (forall k,
          Forall (passes k) (csv.DictReader (fieldnames :: rows)) ->
          annotations self' !! k = annotations self !! k).
Proof.
  intros Hf Hread.
  assert (exists m', load_rows (annotations self) (csv.DictReader (fieldnames :: rows))
                     = Ret m') as [m' Hm]
    by (by apply load_rows_readable).
  assert (load_csv d self csv_path = Ret (with_annotations self m')) as Hrun
    by (unfold load_csv; by rewrite Hf, Hm).
  exists (with_annotations self m'). split; [done|]. split.
  - intros before row after k l -> Hrow Hst Hafter.
    destruct (load_csv_last_row d self csv_path fieldnames row before after k l
                Hf Hrow Hread Hst Hafter) as (s' & Hrun' & Hl).
    rewrite Hrun in Hrun'. by injection Hrun' as <-.
  - intros k Hpass. simpl. by apply (load_rows_passes _ m' _ k Hpass).
Qed.

Lemma load_last_row_wins_witness :
  exists self',
    load_csv twice_seven_disk nine_labelled "clips/run1_labels.csv" = Ret self'
    /\ annotations self' !! 7 = Some {| mode := "blink"; group := Some "" |}
    /\ annotations self' !! 9 = Some A_x.
Proof.
  destruct (load_last_row_wins twice_seven_disk nine_labelled "clips/run1_labels.csv"
              ["frame"; "mode"; "group"] [["7"; "look"; "left"]; ["7"; "blink"; ""]])
    as (self' & Hrun & Hlast & Hkeep).
  - reflexivity.
  - apply Forall_cons. split; [exists 7; reflexivity|].
    apply Forall_cons. split; [exists 7; reflexivity|constructor].
  - exists self'. split; [exact Hrun|]. split.
    + apply (Hlast [["7"; "look"; "left"]] ["7"; "blink"; ""] []).
      * reflexivity.
      * discriminate.
      * repeat split; vm_compute; congruence.
      * constructor.
    + rewrite Hkeep; [reflexivity|].
      apply Forall_cons. split; [left; vm_compute; congruence|].
      apply Forall_cons. split; [left; vm_compute; congruence|]. constructor.
Defined.

Section sidecar_path.

Lemma rfind_from_app (s t : string) (c : ascii) (i last : Z) :
  os_path.rfind_from (s +:+ t) c i last
  = os_path.rfind_from t c (i + Z.of_nat (String.length s))
      (os_path.rfind_from s c i last).
Proof.
  revert i last. induction s as [|a s IH]; intros i last; simpl.
  - f_equal. lia.
  - rewrite IH. f_equal. lia.
Qed.

Lemma rfind_from_plain (s : string) (i last : Z) :
  plain s = true ->
  os_path.rfind_from s "." i last = last /\ os_path.rfind_from s "/" i last = last.
Proof.
  revert i. induction s as [|a s IH]; intros i; simpl; [done|].
  intros [[Hd Hs]%andb_prop Hp]%andb_prop.
  apply negb_true_iff in Hd, Hs. rewrite Hd, Hs. by apply IH.
Qed.

Lemma rfind_from_below (s : string) (c : ascii) (i last : Z) :
  last < i ->
  last <= os_path.rfind_from s c i last < i + Z.of_nat (String.length s).
Proof.
  revert i last. induction s as [|a s IH]; intros i last Hl; simpl; [lia|].
  destruct (Ascii.eqb a c).
  - pose proof (IH (i + 1) i ltac:(lia)). lia.
  - pose proof (IH (i + 1) last ltac:(lia)). lia.
Qed.

Lemma get_app_end (s : string) (a : ascii) (t : string) :
  String.get (String.length s) (s +:+ String a t) = Some a.
Proof. induction s as [|b s IH]; simpl; done. Qed.

Lemma substring_app_front (s : string) (a : ascii) (t : string) :
  substring 0 (S (String.length s)) (s +:+ String a t) = s +:+ String a "".
Proof.
  induction s as [|b s IH]; simpl.
  - by destruct t.
  - by rewrite IH.
Qed.

Lemma append_cons_assoc (s : string) (a : ascii) (t : string) :
  (s +:+ String a "") +:+ t = s +:+ String a t.
Proof.
  induction s as [|b s IH]; [done|].
  change (String b ((s +:+ String a "") +:+ t) = String b (s +:+ String a t)).
  by rewrite IH.
Qed.

(** [splitext] of a path that ends in a dot and an extension, after a
    character of the name that is neither a dot nor a slash: the base is
    the path up to that character. *)
Lemma splitext_stem (front : string) (a : ascii) (ext : string) :
  a <> "/"%char -> a <> "."%char -> plain ext = true ->
  (os_path.splitext (front +:+ String a (String "." ext))).1 = front +:+ String a "".
Proof.
  intros Hsep Hdot Hext.
  apply Ascii.eqb_neq in Hsep, Hdot.
  set (n := Z.of_nat (String.length front)).
  assert (os_path.rfind (front +:+ String a (String "." ext)) "." = n + 1) as Hd.
  { unfold os_path.rfind. rewrite rfind_from_app. cbn [os_path.rfind_from].
    rewrite Hdot. change (Ascii.eqb "." ".") with true.
    rewrite (proj1 (rfind_from_plain ext _ _ Hext)). unfold n. lia. }
  assert (-1 <= os_path.rfind (front +:+ String a (String "." ext)) "/" < n) as Hs.
  { unfold os_path.rfind. rewrite rfind_from_app. cbn [os_path.rfind_from].
    rewrite Hsep. change (Ascii.eqb "." "/") with false.
    rewrite (proj2 (rfind_from_plain ext _ _ Hext)).
    pose proof (rfind_from_below front "/" 0 (-1) ltac:(lia)). unfold n. lia. }
  unfold os_path.splitext. rewrite Hd.
  set (sepIndex := os_path.rfind _ "/") in *.
  replace (sepIndex <? n + 1) with true by (symmetry; apply Z.ltb_lt; lia).
  assert (existsb
            (fun i => negb (bool_decide
                              (String.get (Z.to_nat i)
                                 (front +:+ String a (String "." ext))
                               = Some "."%char)))
            (seqZ (sepIndex + 1) (n + 1 - (sepIndex + 1))) = true) as ->.
  { apply existsb_exists. exists n. split.
    - apply list_elem_of_In, list_elem_of_lookup. exists (Z.to_nat (n - (sepIndex + 1))).
      apply lookup_seqZ. lia.
    - unfold n. rewrite Nat2Z.id, get_app_end.
      apply negb_true_iff, bool_decide_eq_false_2. intros [= ->].
      by rewrite Ascii.eqb_refl in Hdot. }
  simpl. replace (Z.to_nat (n + 1)) with (S (String.length front)) by (unfold n; lia).
  apply substring_app_front.
Qed.

End sidecar_path.

(** X11: the sidecar takes the name of the video without its extension.
    For a video path that ends in a dot and an extension (no dot and no
    slash in it) after a character of the name that is neither a dot nor a
    slash, the derived path is the path up to that character followed by
    [_labels.csv]; it is not the path of the video; and a video whose path
    differs in the extension only has the same sidecar. *)
Theorem derive_csv_path_beside (self other : VideoAnnotatorCore)
    (front : string) (a : ascii) (ext ext' : string) :
  a <> "/"%char -> a <> "."%char -> plain ext = true -> plain ext' = true ->
  path self = Some (front +:+ String a (String "." ext)) ->
  path other = Some (front +:+ String a (String "." ext')) ->
  derive_csv_path self = front +:+ String a "_labels.csv"
  /\ derive_csv_path self <> front +:+ String a (String "." ext)
  /\ derive_csv_path other = derive_csv_path self.
Proof.
  intros Hsep Hdot Hext Hext' Hp Hq.
  assert (forall s e, plain e = true ->
            path s = Some (front +:+ String a (String "." e)) ->
            derive_csv_path s = front +:+ String a "_labels.csv") as Hderive.
  { intros s e He Hs.
    pose proof (splitext_stem front a e Hsep Hdot He) as Hbase.
    unfold derive_csv_path. rewrite Hs.
    destruct (front +:+ String a (String "." e)) as [|b rest] eqn:Hpath;
      [by destruct front|].
    by rewrite Hbase, append_cons_assoc. }
  rewrite (Hderive self ext Hext Hp), (Hderive other ext' Hext' Hq).
  split_and!; [done| |done].
  intros Heq%(inj _). discriminate.
Qed.

Lemma derive_csv_path_beside_witness :
  derive_csv_path labelled = "clips/run1_labels.csv"
  /\ derive_csv_path labelled <> "clips/run1.mp4"
  /\ derive_csv_path (with_path init "clips/run1.avi") = derive_csv_path labelled.
Proof.
  exact (derive_csv_path_beside labelled (with_path init "clips/run1.avi")
           "clips/run" "1" "mp4" "avi"
           ltac:(discriminate) ltac:(discriminate) eq_refl eq_refl eq_refl eq_refl).
Defined.

Section columns.

Implicit Types (names row : list string) (dict : gmap string (option string)).

Lemma zip_fold_absent names row dict (k : string) :
  k ∉ names ->
  fold_left (fun d kv => <[kv.1 := Some kv.2]> d) (zip names row) dict !! k = dict !! k.
Proof.
  revert row dict. induction names as [|n names IH]; intros [|x row] dict Hk; simpl;
    try done.
  apply not_elem_of_cons in Hk as [Hkn Hk].
  rewrite (IH row _ Hk). by rewrite lookup_insert_ne.
Qed.

Lemma zip_fold_present names row dict (i : nat) (k x : string) :
  NoDup names -> names !! i = Some k -> row !! i = Some x ->
  fold_left (fun d kv => <[kv.1 := Some kv.2]> d) (zip names row) dict !! k
  = Some (Some x).
Proof.
  revert row dict i. induction names as [|n names IH]; intros [|y row] dict [|i] Hnd Hn Hx;
    simpl in *; try done.
  - injection Hn as ->. injection Hx as ->.
    apply NoDup_cons in Hnd as [Hk _].
    rewrite (zip_fold_absent names row _ k Hk). apply lookup_insert_eq.
  - apply NoDup_cons in Hnd as [_ Hnd]. by apply (IH row _ i).
Qed.

Lemma rest_fold_lookup (ns : list string) dict (k : string) :
  fold_left (fun d n => <[n := None]> d) ns dict !! k
  = if decide (k ∈ ns) then Some None else dict !! k.
Proof.
  revert dict. induction ns as [|n ns IH]; intros dict; cbn [fold_left].
  - rewrite decide_False; [done|]. apply not_elem_of_nil.
  - rewrite IH. destruct (decide (k ∈ ns)) as [Hin|Hin].
    + rewrite decide_True; [done|]. by right.
    + destruct (decide (k = n)) as [->|Hkn].
      * rewrite decide_True by (by left). apply lookup_insert_eq.
      * rewrite decide_False by (by intros [?|?]%elem_of_cons).
        by rewrite lookup_insert_ne.
Qed.

(** The dictionary of a row gives, under a name of the header, the field
    at the position of that name, [None] when the row is too short; a name
    that is not in the header is not a key. *)
Lemma row_dict_lookup names row (i : nat) (k : string) :
  NoDup names -> names !! i = Some k ->
  csv.row_dict names row !! k = Some (row !! i).
Proof.
  intros Hnd Hn. unfold csv.row_dict. rewrite rest_fold_lookup.
  destruct (row !! i) as [x|] eqn:Hx.
  - rewrite decide_False.
    + by apply (zip_fold_present names row ∅ i).
    + intros [j Hj]%list_elem_of_lookup. rewrite lookup_drop in Hj.
      pose proof (lookup_lt_Some _ _ _ Hx).
      pose proof (NoDup_lookup _ _ _ _ Hnd Hn Hj). lia.
  - rewrite decide_True; [done|]. apply lookup_ge_None in Hx.
    apply list_elem_of_lookup. exists (i - length row)%nat.
    rewrite lookup_drop. by replace (length row + (i - length row))%nat with i by lia.
Qed.

Lemma row_dict_absent names row (k : string) :
  k ∉ names -> csv.row_dict names row !! k = None.
Proof.
  intros Hk. unfold csv.row_dict. rewrite rest_fold_lookup.
  rewrite decide_False.
  - by rewrite zip_fold_absent.
  - intros Hin. apply Hk. by apply (subseteq_drop (length row)).
Qed.

End columns.

(** X12: [load_csv] finds the frame column by its name, wherever it
    stands in the header (no name twice), and the first row whose frame it
    cannot read ends the call.  The rows before it being read, [load_csv]
    raises [KeyError] when the header has no column [frame], [TypeError]
    when the row ends before that column, and [ValueError] when the field
    is not an integer literal; when the field is one, the call returns if
    the frames of the rows after it are read too. *)
Theorem frame_column_by_name (d : Disk) (self : VideoAnnotatorCore) (csv_path : string)
    (fieldnames row : list string) (before after : list (list string)) :
  files d !! csv_path = Some (fieldnames :: before ++ row :: after) ->
  row <> [] ->
  NoDup fieldnames ->
  Forall frame_readable (csv.DictReader (fieldnames :: before)) ->
  ("frame" ∉ fieldnames -> load_csv d self csv_path = Raise (Py.KeyError "frame"))
  /\ (forall i : nat,
        fieldnames !! i = Some "frame" ->
        match row !! i with
        | None => load_csv d self csv_path = Raise Py.TypeError
        | Some s =>
            match Py.int s with
            | None => load_csv d self csv_path = Raise (Py.ValueError s)
            | Some z =>
                Forall frame_readable (csv.DictReader (fieldnames :: after)) ->
                exists self', load_csv d self csv_path = Ret self'
            end
        end).
Proof.
  intros Hf Hrow Hnd Hread. split.
  - intros Hk.
    apply (load_csv_first_bad_row d self csv_path fieldnames row before after);
      [done..|].
    unfold frame_of_row. by rewrite (row_dict_absent fieldnames row _ Hk).
  - intros i Hi.
    pose proof (row_dict_lookup fieldnames row i _ Hnd Hi) as Hlookup.
    destruct (row !! i) as [s|] eqn:Hs.
    + destruct (Py.int s) as [z|] eqn:Hint.
      * intros Hafter. unfold load_csv. rewrite Hf.
        assert (Forall frame_readable
                  (csv.DictReader (fieldnames :: before ++ row :: after))) as Hall.
        { rewrite (DictReader_split fieldnames row before after Hrow).
          apply Forall_app. split; [done|]. apply Forall_cons. split; [|done].
          exists z. unfold frame_of_row. by rewrite Hlookup, Hint. }
        destruct (proj1 (load_rows_readable (annotations self) _) Hall) as [m' ->].
        by eexists.
      * apply (load_csv_first_bad_row d self csv_path fieldnames row before after);
          [done..|].
        unfold frame_of_row. by rewrite Hlookup, Hint.
    + apply (load_csv_first_bad_row d self csv_path fieldnames row before after);
        [done..|].
      unfold frame_of_row. by rewrite Hlookup.
Qed.

Lemma frame_column_by_name_witness :
  load_csv foreign_sidecars init "no_frame.csv" = Raise (Py.KeyError "frame")
  /\ load_csv foreign_sidecars init "short_row.csv" = Raise Py.TypeError
  /\ load_csv foreign_sidecars init "not_integer.csv" = Raise (Py.ValueError "1.5")
  /\ load_csv foreign_sidecars init "separator.csv"
     = Raise (Py.ValueError (String "028" "9")).
Proof.
  assert (NoDup ["mode"; "frame"]) as Hmf
    by (apply (bool_decide_unpack _); vm_compute; exact I).
  assert (NoDup ["frame"; "mode"]) as Hfm
    by (apply (bool_decide_unpack _); vm_compute; exact I).
  assert (NoDup ["mode"; "group"]) as Hmg
    by (apply (bool_decide_unpack _); vm_compute; exact I).
  split_and!.
  - apply (frame_column_by_name foreign_sidecars init "no_frame.csv"
             ["mode"; "group"] ["look"; "left"] [] []);
      [reflexivity|discriminate|exact Hmg|constructor|].
    apply (bool_decide_unpack _). vm_compute. exact I.
  - exact (proj2 (frame_column_by_name foreign_sidecars init "short_row.csv"
                    ["mode"; "frame"] ["look"] [["blink"; " 12 "]] []
                    eq_refl ltac:(discriminate) Hmf
                    ltac:(apply Forall_cons; split;
                          [exists 12; reflexivity|constructor]))
             1%nat eq_refl).
  - exact (proj2 (frame_column_by_name foreign_sidecars init "not_integer.csv"
                    ["mode"; "frame"] ["look"; "1.5"] [] []
                    eq_refl ltac:(discriminate) Hmf ltac:(constructor))
             1%nat eq_refl).
  - exact (proj2 (frame_column_by_name foreign_sidecars init "separator.csv"
                    ["frame"; "mode"] [String "028" "9"; "look"] [] []
                    eq_refl ltac:(discriminate) Hfm ltac:(constructor))
             0%nat eq_refl).
Defined.

(** * Further properties of the fill *)

Section scanning.

Import GazeEncoderApp.
Implicit Types (a : VideoAnnotatorCore).

(** What the scan down returns is the nearest label at or below its
    start. *)
Lemma find_loop_down_found fuel a (idx p : Z) (lp : Label) :
  find_loop fuel a idx (-1) = Some (Some (p, lp)) ->
  0 <= p <= idx /\ idx < frame_count a /\ annotations a !! p = Some lp
  /\ forall i, p < i <= idx -> annotations a !! i = None.
Proof.
  revert idx. induction fuel as [|fuel IH]; intros idx; simpl; [done|].
  destruct (Z.leb_spec 0 idx); simpl; [|done].
  destruct (Z.ltb_spec idx (frame_count a)); simpl; [|done].
  destruct (annotations a !! idx) as [l|] eqn:Hl.
  - intros [= <- <-]. split_and!; try done; lia.
  - intros (? & ? & ? & Hgap)%IH. split_and!; try done; try lia.
    intros i Hi. destruct (decide (i = idx)) as [->|]; [done|]. apply Hgap. lia.
Qed.

(** What the scan up returns is the nearest label at or above its start. *)
Lemma find_loop_up_found fuel a (idx n : Z) (ln : Label) :
  find_loop fuel a idx 1 = Some (Some (n, ln)) ->
  0 <= idx <= n /\ n < frame_count a /\ annotations a !! n = Some ln
  /\ forall i, idx <= i < n -> annotations a !! i = None.
Proof.
  revert idx. induction fuel as [|fuel IH]; intros idx; simpl; [done|].
  destruct (Z.leb_spec 0 idx); simpl; [|done].
  destruct (Z.ltb_spec idx (frame_count a)); simpl; [|done].
  destruct (annotations a !! idx) as [l|] eqn:Hl.
  - intros [= <- <-]. split_and!; try done; lia.
  - intros (? & ? & ? & Hgap)%IH. split_and!; try done; try lia.
    intros i Hi. destruct (decide (i = idx)) as [->|]; [done|]. apply Hgap. lia.
Qed.

Lemma find_neighbor_down_spec a (start : Z) :
  exists r,
    _find_neighbor_label a start (-1) = Ret r
    /\ forall p lp, r = Some (p, lp) <-> nearest_below a start p lp.
Proof.
  destruct (find_neighbor_returns a start) as [[r Hr] _]. exists r. split; [done|].
  intros p lp. unfold nearest_below. split.
  - intros ->. unfold _find_neighbor_label in Hr.
    destruct (find_loop _ a (start + -1) (-1)) as [r|] eqn:Hloop; [|done].
    injection Hr as ->.
    apply find_loop_down_found in Hloop as (? & ? & ? & Hgap).
    split_and!; try done; try lia. intros i Hi. apply Hgap. lia.
  - intros (Hs & Hp & Hlp & Hgap). unfold _find_neighbor_label in Hr.
    rewrite (find_loop_down _ a (start + -1) p lp) in Hr;
      [by injection Hr as <-|lia|lia|done| |lia].
    intros i Hi. apply Hgap. lia.
Qed.

Lemma find_neighbor_up_spec a (start : Z) :
  exists r,
    _find_neighbor_label a start 1 = Ret r
    /\ forall n ln, r = Some (n, ln) <-> nearest_above a start n ln.
Proof.
  destruct (find_neighbor_returns a start) as [_ [r Hr]]. exists r. split; [done|].
  intros n ln. unfold nearest_above. split.
  - intros ->. unfold _find_neighbor_label in Hr.
    destruct (find_loop _ a (start + 1) 1) as [r|] eqn:Hloop; [|done].
    injection Hr as ->.
    apply find_loop_up_found in Hloop as (? & ? & ? & Hgap).
    split_and!; try done; try lia. intros i Hi. apply Hgap. lia.
  - intros (Hs & Hn & Hln & Hgap). unfold _find_neighbor_label in Hr.
    rewrite (find_loop_up _ a (start + 1) n ln) in Hr;
      [by injection Hr as <-|lia|lia|done| |lia].
    intros i Hi. apply Hgap. lia.
Qed.

End scanning.

(** X13: [_find_neighbor_label] returns the nearest labeled frame of the
    video in the direction it scans, with its label, and [(None, None)]
    exactly when there is none: below [start] with step -1, above it with
    step +1.  Labels outside [0, frame_count) are not seen, and a scan that
    starts outside the video finds nothing. *)
Theorem find_neighbor_nearest (a : VideoAnnotatorCore) (start : Z) :
  (exists r,
     GazeEncoderApp._find_neighbor_label a start (-1) = Ret r
     /\ forall p lp, r = Some (p, lp) <-> nearest_below a start p lp)
  /\ (exists r,
        GazeEncoderApp._find_neighbor_label a start 1 = Ret r
        /\ forall n ln, r = Some (n, ln) <-> nearest_above a start n ln).
Proof. split; [apply find_neighbor_down_spec|apply find_neighbor_up_spec]. Qed.

Section filling.

Import GazeEncoderApp.
Implicit Types (a : VideoAnnotatorCore) (d : Disk).

Lemma filled_between_lookup (m : gmap Z Label) (p n i : Z) (fill : Label) :
  filled_between m p n fill !! i
  = if decide (p < i < n) then Some (default fill (m !! i)) else m !! i.
Proof.
  unfold filled_between. rewrite fill_fold_lookup.
  destruct (decide (p < i < n)) as [Hi|Hi].
  - rewrite decide_True; [done|]. by apply elem_of_seqZ_between.
  - rewrite decide_False; [done|]. intros Hin. by apply elem_of_seqZ_between in Hin.
Qed.

(** The handler on an unlabeled frame of a loaded video, step by step. *)
Lemma fill_between_labels_unlabeled d a (c : cv2.VideoCapture) :
  cap a = Some c -> annotations a !! current_frame a = None ->
  exists prev next,
    (forall p lp, prev = Some (p, lp) <-> nearest_below a (current_frame a) p lp)
    /\ (forall n ln, next = Some (n, ln) <-> nearest_above a (current_frame a) n ln)
    /\ fill_between_labels d a
       = match prev, next with
         | Some (p, lp), Some (n, ln) =>
             if bool_decide (mode lp = mode ln) && bool_decide (group lp = group ln)
             then
               let a1 :=
                 with_annotations a
                   (filled_between (annotations a) p n
                      {| mode := mode lp; group := group lp |}) in
               Ret (Filled (n - p - 1), goto_frame a1 (current_frame a),
                    save_csv d a1)
             else Ret (Warning "Warning" must_match, a, d)
         | _, _ => Ret (Warning "Warning" must_match, a, d)
         end.
Proof.
  intros Hcap Hcur. set (cur := current_frame a) in *.
  destruct (find_neighbor_down_spec a cur) as (prev & Hdown & Hprev).
  destruct (find_neighbor_up_spec a cur) as (next & Hup & Hnext).
  exists prev, next. split; [done|]. split; [done|].
  unfold fill_between_labels. rewrite Hcap. fold cur. unfold get_label. simpl.
  rewrite Hcur, Hdown, Hup. simpl.
  destruct prev as [[p lp]|]; [|done]. destruct next as [[n ln]|]; [|done].
  destruct (_ && _); simpl; [|done].
  destruct (proj1 (Hprev p lp) eq_refl) as (_ & Hp & _ & Hbelow).
  destruct (proj1 (Hnext n ln) eq_refl) as (_ & Hn & _ & Habove).
  set (fill := {| mode := mode lp; group := group lp |}).
  set (ks := seqZ (p + 1) (n - (p + 1))).
  pose proof (fill_fold_count fill ks (annotations a) 0 (NoDup_seqZ _ _)) as Hcount.
  unfold filled_between. fold ks.
  destruct (fold_left _ ks _) as [m filled] eqn:Hfold. simpl in Hcount. simpl.
  rewrite Hcount.
  - unfold ks. rewrite length_seqZ.
    replace (0 + Z.of_nat (Z.to_nat (n - (p + 1)))) with (n - p - 1) by lia.
    by replace (n - p - 1 =? 0) with false by (symmetry; apply Z.eqb_neq; lia).
  - intros k Hk%elem_of_seqZ_between.
    destruct (decide (k = cur)) as [->|]; [done|].
    destruct (decide (k < cur)); [apply Hbelow|apply Habove]; lia.
Qed.

End filling.

(** X14: the fill happens only between two equal labels.  Whenever the
    handler reaches its end with the counter [filled], the cursor is on an
    unlabeled frame, its nearest labeled neighbours [prev] and [next]
    inside the video carry the same mode and the same group, the counter is
    the number of frames between them (at least one), those frames and no
    others have received that label, and the sidecar has been rewritten
    from the new ledger. *)
Theorem fill_only_between_equal_neighbours (d d' : Disk)
    (a a' : VideoAnnotatorCore) (filled : Z) :
  GazeEncoderApp.fill_between_labels d a = Ret (GazeEncoderApp.Filled filled, a', d') ->
  exists prev next prev_label next_label,
    nearest_below a (current_frame a) prev prev_label
    /\ nearest_above a (current_frame a) next next_label
    /\ annotations a !! current_frame a = None
    /\ mode prev_label = mode next_label /\ group prev_label = group next_label
    /\ filled = next - prev - 1 /\ 0 < filled
    /\ (forall i, annotations a' !! i
                  = if decide (prev < i < next) then Some prev_label
                    else annotations a !! i)
    /\ d' = save_csv d a'.
Proof.
  intros Hrun.
  destruct (cap a) as [c|] eqn:Hcap;
    [|unfold GazeEncoderApp.fill_between_labels in Hrun; by rewrite Hcap in Hrun].
  destruct (annotations a !! current_frame a) as [l|] eqn:Hcur.
  { unfold GazeEncoderApp.fill_between_labels, get_label in Hrun. simpl in Hrun.
    by rewrite Hcap, Hcur in Hrun. }
  destruct (fill_between_labels_unlabeled d a c Hcap Hcur)
    as (prev & next & Hprev & Hnext & Heq).
  rewrite Heq in Hrun. clear Heq.
  destruct prev as [[p lp]|]; [|done]. destruct next as [[n ln]|]; [|done].
  pose proof (proj1 (Hprev p lp) eq_refl) as Hp.
  pose proof (proj1 (Hnext n ln) eq_refl) as Hn.
  destruct (bool_decide (mode lp = mode ln)) eqn:Hm; simpl in Hrun; [|done].
  destruct (bool_decide (group lp = group ln)) eqn:Hg; simpl in Hrun; [|done].
  apply bool_decide_eq_true_1 in Hm, Hg.
  injection Hrun as <- <- <-.
  destruct (goto_frame_ledger
              (with_annotations a
                 (filled_between (annotations a) p n
                    {| mode := mode lp; group := group lp |})) (current_frame a))
    as (Hann & Hpath & _).
  exists p, n, lp, ln. destruct Hp as (? & ? & ? & Hbelow), Hn as (? & ? & ? & Habove).
  split_and!; try done; try lia.
  - intros i. rewrite Hann. simpl. rewrite filled_between_lookup.
    destruct (decide (p < i < n)) as [Hi|]; [|done].
    assert (annotations a !! i = None) as ->.
    { destruct (decide (i = current_frame a)) as [->|]; [done|].
      destruct (decide (i < current_frame a)); [apply Hbelow|apply Habove]; lia. }
    simpl. by destruct lp.
  - unfold save_csv, derive_csv_path. by rewrite Hann, Hpath.
Qed.

Lemma fill_only_between_equal_neighbours_witness :
  exists prev next prev_label next_label,
    nearest_below (gap A_x) 10 prev prev_label
    /\ nearest_above (gap A_x) 10 next next_label
    /\ 9 = next - prev - 1
    /\ gap_filled.2 = save_csv empty_disk gap_filled.1.
Proof.
  assert (GazeEncoderApp.fill_between_labels empty_disk (gap A_x)
          = Ret (GazeEncoderApp.Filled 9, gap_filled.1, gap_filled.2)) as Hrun
    by (vm_compute; reflexivity).
  destruct (fill_only_between_equal_neighbours empty_disk gap_filled.2 (gap A_x)
              gap_filled.1 9 Hrun)
    as (prev & next & lp & ln & Hp & Hn & _ & _ & _ & Hcount & _ & _ & Hd).
  exists prev, next, lp, ln. split_and!; assumption.
Defined.

(** X15: the handler is conservative, wherever the cursor is and whatever
    the ledger holds.  It never removes or changes a label that is there;
    it either fills at least one frame or leaves the state and the disk
    exactly as they were; and the dialog for a fill that found nothing to
    fill is never shown. *)
Theorem fill_is_conservative (d d' : Disk) (a a' : VideoAnnotatorCore)
    (r : GazeEncoderApp.report) :
  GazeEncoderApp.fill_between_labels d a = Ret (r, a', d') ->
  (forall k l, annotations a !! k = Some l -> annotations a' !! k = Some l)
  /\ match r with
     | GazeEncoderApp.Filled filled => 0 < filled
     | _ => a' = a /\ d' = d
     end
  /\ r <> GazeEncoderApp.Information "Info" "No unlabeled frames between labels".
Proof.
  intros Hrun.
  destruct (cap a) as [c|] eqn:Hcap; cycle 1.
  { unfold GazeEncoderApp.fill_between_labels in Hrun. rewrite Hcap in Hrun.
    by injection Hrun as <- <- <-. }
  destruct (annotations a !! current_frame a) as [l|] eqn:Hcur.
  { unfold GazeEncoderApp.fill_between_labels, get_label in Hrun. simpl in Hrun.
    rewrite Hcap, Hcur in Hrun. by injection Hrun as <- <- <-. }
  destruct (fill_between_labels_unlabeled d a c Hcap Hcur)
    as (prev & next & Hprev & Hnext & Heq).
  rewrite Heq in Hrun. clear Heq.
  destruct prev as [[p lp]|]; [|by injection Hrun as <- <- <-].
  destruct next as [[n ln]|]; [|by injection Hrun as <- <- <-].
  destruct (_ && _); [|by injection Hrun as <- <- <-].
  injection Hrun as <- <- <-.
  destruct (proj1 (Hprev p lp) eq_refl) as (_ & Hp & _).
  destruct (proj1 (Hnext n ln) eq_refl) as (_ & Hn & _).
  split_and!; [|lia|done].
  intros k l Hk.
  destruct (goto_frame_ledger
              (with_annotations a
                 (filled_between (annotations a) p n
                    {| mode := mode lp; group := group lp |})) (current_frame a))
    as (-> & _).
  simpl. rewrite filled_between_lookup, Hk. by destruct (decide _).
Qed.

Lemma fill_is_conservative_witness :
  gap_refused.1.2 = gap B_x /\ gap_refused.2 = empty_disk
  /\ 0 < 9
  /\ annotations gap_filled.1 !! 5 = Some A_x.
Proof.
  assert (GazeEncoderApp.fill_between_labels empty_disk (gap B_x)
          = Ret (GazeEncoderApp.Warning "Warning" GazeEncoderApp.must_match,
                 gap_refused.1.2, gap_refused.2)) as Hrefused
    by (vm_compute; reflexivity).
  assert (GazeEncoderApp.fill_between_labels empty_disk (gap A_x)
          = Ret (GazeEncoderApp.Filled 9, gap_filled.1, gap_filled.2)) as Hfilled
    by (vm_compute; reflexivity).
  destruct (fill_is_conservative _ _ _ _ _ Hrefused) as (_ & [Hsame Hdisk] & _).
  destruct (fill_is_conservative _ _ _ _ _ Hfilled) as (Hkept & Hpos & _).
  split_and!; [exact Hsame|exact Hdisk|exact Hpos|].
  apply Hkept. reflexivity.
Defined.

(** * The timeline *)

Section timeline.

Variable color : Z -> string.

Lemma tiles_snoc (lo s k hi : Z) (c : string) (segs : list (Z * Z * string)) :
  tiles color lo (segs ++ [(s, k, c)]) k ->
  color k <> c -> k < hi -> (forall i, k <= i < hi -> color i = color k) ->
  tiles color lo ((segs ++ [(s, k, c)]) ++ [(k, hi, color k)]) hi.
Proof.
  revert lo. induction segs as [|[[s0 e0] c0] segs IH]; intros lo; simpl.
  - intros (-> & ? & ? & _ & _) ? ? ?. split_and!; try done.
  - intros (-> & ? & ? & Hnext & Hrest) ? ? ?. split_and!; try done.
    + intros _. apply Hnext. by destruct segs.
    + by apply IH.
Qed.

Lemma tiles_cover (lo hi i : Z) (segs : list (Z * Z * string)) :
  tiles color lo segs hi -> lo <= i < hi ->
  exists s e, (s, e, color i) ∈ segs /\ s <= i < e.
Proof.
  revert lo. induction segs as [|[[s e] c] segs IH]; intros lo; simpl.
  - lia.
  - intros (-> & ? & Hrun & _ & Hrest) Hi.
    destruct (decide (i < e)) as [Hie|Hie].
    + exists lo, e. rewrite (Hrun i) by lia. split; [by left|lia].
    + destruct (IH e Hrest ltac:(lia)) as (s' & e' & ? & ?).
      exists s', e'. split; [by right|done].
Qed.

Lemma segment_step_run_open (k : Z) (st : list (Z * Z * string) * Z * string) :
  run_open color k st ->
  run_open color (k + 1) (TimelineRenderer.segment_step color st k).
Proof.
  destruct st as [[segs s] c]. intros (Hs & Hrun & Hclose).
  unfold TimelineRenderer.segment_step.
  destruct (String.eqb_spec (color k) c) as [Heq|Hne]; simpl.
  - split; [lia|split].
    + intros i Hi. destruct (decide (i = k)) as [->|]; [done|]. apply Hrun. lia.
    + intros hi Hhi. apply Hclose. lia.
  - split; [lia|split].
    + intros i Hi. by replace i with k by lia.
    + intros hi Hhi Hnew. apply tiles_snoc; [|done|lia|].
      * apply Hclose; [lia|done].
      * intros i Hi. by apply Hnew.
Qed.

Lemma segments_fold_run_open (len : nat) (k : Z)
    (st : list (Z * Z * string) * Z * string) :
  run_open color k st ->
  run_open color (k + Z.of_nat len)
    (fold_left (TimelineRenderer.segment_step color) (seqZ k (Z.of_nat len)) st).
Proof.
  revert k st. induction len as [|len IH]; intros k st Hst.
  - rewrite seqZ_nil by lia. simpl. by rewrite Z.add_0_r.
  - rewrite seqZ_cons by lia. simpl.
    replace (Z.pred (Z.of_nat (S len))) with (Z.of_nat len) by lia.
    replace (k + Z.of_nat (S len)) with (Z.succ k + Z.of_nat len) by lia.
    apply IH. replace (Z.succ k) with (k + 1) by lia.
    by apply segment_step_run_open.
Qed.

End timeline.

(** X16: the runs of colour that [render] draws tile the video.  When the
    list is built (a video is loaded, it has frames, the label is more than
    one pixel wide and high), its segments follow one another from frame 0
    to [frame_count], none is empty, each has the colour of every frame in
    it, two neighbours differ in colour, and so every frame of the video
    lies in one segment, of its own colour. *)
Theorem segments_tile (annotator : VideoAnnotatorCore)
    (color_for_mode : string -> string) (width height : Z)
    (segs : list (Z * Z * string)) :
  TimelineRenderer.segments annotator color_for_mode width height = Some segs ->
  let color := TimelineRenderer.color_for_frame annotator color_for_mode in
  tiles color 0 segs (frame_count annotator)
  /\ forall i, 0 <= i < frame_count annotator ->
       exists s e, (s, e, color i) ∈ segs /\ s <= i < e.
Proof.
  intros Hsegs color. unfold TimelineRenderer.segments in Hsegs.
  destruct (cap annotator); [|done].
  destruct (_ || _); [done|].
  destruct (Z.leb_spec (frame_count annotator) 0) as [|Hpos]; [done|].
  cbv zeta in Hsegs. fold color in Hsegs.
  pose proof (segments_fold_run_open color (Z.to_nat (frame_count annotator - 1)) 1
                ([], 0, color 0)) as Hfold.
  rewrite Z2Nat.id in Hfold by lia.
  destruct (fold_left _ _ _) as [[segs0 s] c].
  injection Hsegs as <-.
  assert (tiles color 0 (segs0 ++ [(s, frame_count annotator, c)])
            (frame_count annotator)) as Htiles.
  { destruct Hfold as (Hs & Hrun & Hclose).
    - split; [lia|split].
      + intros i Hi. by replace i with 0 by lia.
      + intros hi Hhi Hrun. simpl. split_and!; try done. lia.
    - apply Hclose; [lia|]. intros i Hi. apply Hrun. lia. }
  split; [done|]. intros i Hi. by apply (tiles_cover color 0 (frame_count annotator)).
Qed.

Lemma segments_tile_witness :
  TimelineRenderer.segments (gap B_x) two_colours 800 26
  = Some [(0, 5, "#AAAAAA"); (5, 6, "#FF0000"); (6, 15, "#AAAAAA");
          (15, 16, "#0000FF"); (16, 20, "#AAAAAA")]
  /\ exists s e,
       (s, e, "#0000FF")
         ∈ [(0, 5, "#AAAAAA"); (5, 6, "#FF0000"); (6, 15, "#AAAAAA");
            (15, 16, "#0000FF"); (16, 20, "#AAAAAA")]
       /\ s <= 15 < e.
Proof.
  assert (TimelineRenderer.segments (gap B_x) two_colours 800 26
          = Some [(0, 5, "#AAAAAA"); (5, 6, "#FF0000"); (6, 15, "#AAAAAA");
                  (15, 16, "#0000FF"); (16, 20, "#AAAAAA")]) as Hsegs
    by (vm_compute; reflexivity).
  split; [exact Hsegs|].
  destruct (segments_tile (gap B_x) two_colours 800 26 _ Hsegs) as [_ Hcover].
  exact (Hcover 15 ltac:(simpl; lia)).
Defined.
